(** * Mempool tracing schema, transaction RPC and the dissemination protocol

    A shallow embedding of
    - [pkg/trace/schema/mempool.go]   (module [Schema]),
    - [rpc/core/tx.go] and its second copy (modules [Core] and [CoreCopy]),
    - the dissemination and peer-reconciliation protocol of the design
      document, whose implementation is not among the sources
      (module [Mempool]),
    followed by the properties established about them. *)

From Stdlib Require Import ZArith Lia String List Permutation.
From stdpp Require Import base option list gmap sets strings.

Set Warnings "-clear-no-such-hyp".

(* ===================================================================== *)
(** * Part I: definitions                                                 *)
(* ===================================================================== *)

(** Go's byte slices. *)
Definition bytes := list Byte.byte.

(** Bytes are compared with [Byte.eqb]. *)
#[global] Instance byte_eq_dec : EqDecision Byte.byte.
Proof.
  intros x y. destruct (Byte.eqb x y) eqn:E.
  - left. by apply Byte.byte_dec_bl.
  - right. by apply Byte.eqb_false.
Defined.

(* --------------------------------------------------------------------- *)
(** ** pkg/trace/schema/mempool.go                                        *)
(* --------------------------------------------------------------------- *)
Module Schema.
Local Open Scope string_scope.

(** [p2p.ID] is a string type. *)
Definition ID := string.

(** The dynamically typed values ([interface{}]) the schema stores in a
    point: strings, [int]s and peer identifiers. *)
Inductive FieldValue :=
| VString (s : string)
| VInt (n : Z)
| VID (p : ID).

(** A trace point: the table ("measurement") it goes to and its fields, a
    Go [map[string]interface{}]. *)
Record Point := { measurement : string; fields : gmap string FieldValue }.

(** Modelled from the spec: [trace.Client] (package [pkg/trace]) is not among
    the sources.  The design document describes it as a write-only sink with
    an "is this table being traced" guard; the client is therefore the set of
    tables it collects together with the points written so far. *)
Record Client := { collecting : gset string; written : list Point }.

(** Modelled from the spec: the method [IsCollecting] of the client, the guard "is
    this table being traced". *)
Definition IsCollecting (c : Client) (table : string) : bool :=
  bool_decide (table ∈ collecting c).

(** Modelled from the spec: the method [WritePoint] of the client.  The comments in
    [WriteMempoolTx] record that [WritePoint] repeats the [IsCollecting]
    check; a point for a collected table is appended to the sink. *)
Definition WritePoint (c : Client) (table : string)
    (fs : gmap string FieldValue) : Client :=
  if IsCollecting c table
  then {| collecting := collecting c;
          written := written c ++ [{| measurement := table; fields := fs |}] |}
  else c.

(** What the schema file takes from elsewhere in the repository: constants
    of the same package declared in other files, the transaction digest
    [types.Tx.Hash] and the printer [bytes.HexBytes.String]. *)
Class Imports := {
  RoundStateTable : string;
  PeerFieldKey : string;
  TransferTypeFieldKey : string;
  TxHash : bytes → bytes;
  HexString : bytes → string;
}.

(** Schema constants for the mempool_tx table. *)
Definition MempoolTxTable := "mempool_tx".
Definition TxFieldKey := "tx".
Definition SizeFieldKey := "size".
Definition VersionFieldKey := "version".
Definition V1VersionFieldValue := "v1".
Definition CatVersionFieldValue := "cat".

(** Schema constants for the mempool_peer_state table. *)
Definition MempoolPeerStateTable := "mempool_peer_state".
Definition StateUpdateFieldKey := "update".
Definition SeenTxStateUpdateFieldValue := "seen_tx".
Definition WantTxStateUpdateFieldValue := "want_tx".
Definition RemovedTxStateUpdateFieldValue := "removed_tx".
Definition AddedTxStateUpdateFieldValue := "added_tx".

(** [MempoolTables] returns the list of tables for mempool tracing. *)
Definition MempoolTables : list string :=
  [MempoolTxTable; MempoolPeerStateTable].

(** Every table constant the file declares.  The third [const] block adds
    none: its only entry, [LocalTable = "mempool_local"], is commented
    out. *)
Definition DeclaredTables : list string :=
  [MempoolTxTable; MempoolPeerStateTable].

(** The name the commented-out local table would have had. *)
Definition CommentedOutLocalTable := "mempool_local".

Section Writers.
Context {I : Imports}.
(** Everything the node holds besides the trace client. *)
Variable Node : Type.

Record World := { client : Client; node : Node }.

(** The functions of the file have no result and act on the client they
    are given: a state monad over [World]. *)
Definition M (A : Type) : Type := World → A * World.
Definition ret {A} (a : A) : M A := λ w, (a, w).
Definition bind {A B} (m : M A) (k : A → M B) : M B :=
  λ w, let '(a, w') := m w in k a w'.

Definition client_IsCollecting (table : string) : M bool :=
  λ w, (IsCollecting (client w) table, w).
Definition client_WritePoint (table : string)
    (fs : gmap string FieldValue) : M unit :=
  λ w, (tt, {| client := WritePoint (client w) table fs; node := node w |}).

(** A Go map literal: the entries are stored in the order written. *)
Definition map_literal (kvs : list (string * FieldValue))
  : gmap string FieldValue := list_to_map kvs.

(** [WriteMempoolTx] writes a tracing point for a tx. *)
Definition WriteMempoolTx (peer : ID) (tx : bytes)
    (transferType version : string) : M unit :=
  bind (client_IsCollecting MempoolTxTable) (λ ok,
  if negb ok then ret tt
  else client_WritePoint MempoolTxTable (map_literal [
    (TxFieldKey, VString (HexString (TxHash tx)));
    (PeerFieldKey, VID peer);
    (SizeFieldKey, VInt (Z.of_nat (length tx)));
    (TransferTypeFieldKey, VString transferType);
    (VersionFieldKey, VString version) ])).

(** [WriteMempoolPeerState] writes a tracing point for the mempool
    state. *)
Definition WriteMempoolPeerState (peer : ID)
    (stateUpdate transferType version : string) : M unit :=
  bind (client_IsCollecting RoundStateTable) (λ ok,
  if negb ok then ret tt
  else client_WritePoint RoundStateTable (map_literal [
    (PeerFieldKey, VID peer);
    (TransferTypeFieldKey, VString transferType);
    (StateUpdateFieldKey, VString stateUpdate);
    (VersionFieldKey, VString version) ])).
End Writers.

Arguments client {Node} _.
Arguments node {Node} _.
Arguments Build_World {Node} _ _.
Arguments WriteMempoolTx {_ Node} _ _ _ _.
Arguments WriteMempoolPeerState {_ Node} _ _ _ _.

(** The points of a world's sink. *)
Definition sink {Node} (w : World Node) : list Point := written (client w).

(** Example values for what the file imports: a name for the consensus
    table, names for the two shared field keys, a stand-in digest (the
    bytes reversed) and an upper-case hexadecimal printer. *)
Definition hex_digit (n : N) : Ascii.ascii :=
  Ascii.ascii_of_N (if (n <? 10)%N then 48 + n else 55 + n).
Definition hex_byte (b : Byte.byte) : string :=
  let n := Byte.to_N b in
  String (hex_digit (n / 16)) (String (hex_digit (n mod 16)) EmptyString).
Definition hex_upper (bs : bytes) : string :=
  fold_right (λ b acc, hex_byte b ++ acc) EmptyString bs.

Definition example_imports : Imports := {|
  RoundStateTable := "consensus_round_state";
  PeerFieldKey := "peer";
  TransferTypeFieldKey := "transfer_type";
  TxHash := λ tx, rev tx;
  HexString := hex_upper;
|}.

(** A client that collects exactly the two mempool tables. *)
Definition mempool_client : Client :=
  {| collecting := list_to_set MempoolTables; written := [] |}.

(** A client that collects only the consensus round-state table. *)
Definition consensus_client : Client :=
  {| collecting := {["consensus_round_state"]}; written := [] |}.

End Schema.

(* --------------------------------------------------------------------- *)
(** ** What rpc/core/tx.go and its copy share                             *)
(* --------------------------------------------------------------------- *)
Module Rpc.
Local Open Scope string_scope.
Local Open Scope Z_scope.

(** An argument handed to [fmt.Errorf] or [fmt.Sprintf]. *)
Inductive FmtArg :=
| ArgBytes (b : bytes)
| ArgInt (n : Z).

(** Go's [error] values, by the call that makes them. *)
Inductive error :=
| errors_New (msg : string)
| fmt_Errorf (format : string) (args : list FmtArg).

(** A call either returns or panics. *)
Inductive outcome (A : Type) :=
| Returns (a : A)
| Panics (why : string).
Arguments Returns {A} _.
Arguments Panics {A} _.

(** Go's [int] is a 64-bit two's complement integer: the result of an
    addition or subtraction wraps around. *)
Definition wrap_int (z : Z) : Z := (z + 2 ^ 63) mod 2 ^ 64 - 2 ^ 63.

(** The types of other packages whose declarations are not among the
    sources, with the zero values the code uses. *)
Class Types := {
  ShareProof : Type;
  ShareProof_zero : ShareProof;
  PShareProof : Type;
  PShareProof_zero : PShareProof;
  ResponseDeliverTx : Type;
  Query : Type;
  GoContext : Type;
  RpcContext : Type;
}.

Section Records.
Context {T : Types}.

(** [abci.TxResult]: [Height] is an [int64], [Index] a [uint32]. *)
Record TxResult := {
  TxResult_Height : Z;
  TxResult_Index : Z;
  TxResult_Tx : bytes;
  TxResult_Result : ResponseDeliverTx;
}.

(** [ctypes.ResultTx]. *)
Record ResultTx := {
  ResultTx_Hash : bytes;
  ResultTx_Height : Z;
  ResultTx_Index : Z;
  ResultTx_TxResult : ResponseDeliverTx;
  ResultTx_Tx : bytes;
  ResultTx_Proof : ShareProof;
}.

(** [ctypes.ResultTxSearch]. *)
Record ResultTxSearch := {
  ResultTxSearch_Txs : list ResultTx;
  ResultTxSearch_TotalCount : Z;
}.

(** [types.BlockMeta], as far as the code reads it:
    [BlockID.PartSetHeader.Total], a [uint32]. *)
Record BlockMeta := { BlockID_PartSetHeader_Total : Z }.

(** [types.Part], as far as the code reads it. *)
Record Part := { Part_Bytes : bytes }.

(** [abci.RequestQuery] and [abci.ResponseQuery], as far as the code
    uses them. *)
Record RequestQuery := { RequestQuery_Data : bytes; RequestQuery_Path : string }.
Record ResponseQuery := { ResponseQuery_Value : bytes; ResponseQuery_Log : string }.

(** The interface [txindex.TxIndexer]: whether the value behind it is a
    [*null.TxIndex], and its methods.  A Go result pair [(v, err)] is a
    pair whose second component is [None] for a nil error; a pointer
    result is [None] when nil.  The records of [Search] are read here
    without their pointers, that is, none of them nil; module
    [Pointers] has the reading with the pointers. *)
Record TxIndexer := {
  is_null_TxIndex : bool;
  TxIndexer_Get : bytes → option TxResult * option error;
  TxIndexer_Search : GoContext → Query → list TxResult * option error;
}.

(** The interface [state.BlockStore], as far as the code calls it. *)
Record BlockStore := {
  LoadBlockMeta : Z → option BlockMeta;
  LoadBlockPart : Z → Z → option Part;
}.

(** The interface [proxy.AppConnQuery]: a nil error comes with a response. *)
Record AppConnQuery := {
  QuerySync : RequestQuery → ResponseQuery * option error;
}.

(** The fields of [Environment] the code reads, as [GetEnvironment]
    returns them. *)
Record Environment := {
  env_TxIndexer : TxIndexer;
  env_BlockStore : BlockStore;
  env_ProxyAppQuery : AppConnQuery;
}.

(** Functions and constants of other files and packages: the query parser
    [query.New], [Context] of the RPC context, the standard library's
    [sort.Slice] (over the records, with the comparison on elements) and
    [fmt.Sprintf], [consts.TxInclusionProofQueryPath], the protobuf
    [Unmarshal] (the decoded value and the error), [types.ShareProofFromProto],
    [types.Tx.Hash], and from the package itself [maxQueryLength],
    [validatePerPage], [validatePage], [validateSkipCount]; [MinInt] of
    [libs/math]. *)
Class Imports := {
  query_New : string → Query * option error;
  ctx_Context : RpcContext → GoContext;
  sort_Slice : list TxResult → (TxResult → TxResult → bool) → list TxResult;
  fmt_Sprintf : string → list FmtArg → string;
  TxInclusionProofQueryPath : string;
  Unmarshal : PShareProof → bytes → PShareProof * option error;
  ShareProofFromProto : PShareProof → ShareProof * option error;
  Tx_Hash : bytes → bytes;
  maxQueryLength : Z;
  validatePerPage : option Z → Z;
  validatePage : option Z → Z → Z → Z * option error;
  validateSkipCount : Z → Z → Z;
  MinInt : Z → Z → Z;
}.

End Records.

Arguments Imports {_}.

End Rpc.

(* --------------------------------------------------------------------- *)
(** ** rpc/core/tx.go                                                     *)
(* --------------------------------------------------------------------- *)
Module Core.
Import Rpc.
Local Open Scope string_scope.
Local Open Scope Z_scope.

Section TxGo.
Context {T : Types} {I : Imports}.

(** The loop of [loadRawBlock]: [n] parts remain, [i] is the next one. *)
Fixpoint loadRawBlock_loop (bs : BlockStore) (height : Z) (n : nat) (i : Z)
    (buf : bytes) : bytes * option error :=
  match n with
  | O => (buf, None)
  | S n' =>
    match LoadBlockPart bs height i with
    | None =>
      ([], Some (fmt_Errorf "missing block part at height %d part %d"
                   [ArgInt height; ArgInt i]))
    | Some part => loadRawBlock_loop bs height n' (i + 1) (buf ++ Part_Bytes part)%list
    end
  end.

Definition loadRawBlock (bs : BlockStore) (height : Z) : bytes * option error :=
  match LoadBlockMeta bs height with
  | None => ([], Some (fmt_Errorf "no block found for height %d" [ArgInt height]))
  | Some blockMeta =>
    loadRawBlock_loop bs height
      (Z.to_nat (BlockID_PartSetHeader_Total blockMeta)) 0 []
  end.

Definition proveTx (env : Environment) (height index : Z)
    : ShareProof * option error :=
  let pShareProof := PShareProof_zero in
  let shareProof := ShareProof_zero in
  let '(rawBlock, err) := loadRawBlock (env_BlockStore env) height in
  match err with
  | Some e => (shareProof, Some e)
  | None =>
    let '(res, err) :=
      QuerySync (env_ProxyAppQuery env)
        {| RequestQuery_Data := rawBlock;
           RequestQuery_Path :=
             fmt_Sprintf TxInclusionProofQueryPath [ArgInt index] |} in
    match err with
    | Some e => (shareProof, Some e)
    | None =>
      let '(pShareProof, err) := Unmarshal pShareProof (ResponseQuery_Value res) in
      match err with
      | Some e => (shareProof, Some e)
      | None =>
        let '(shareProof, err) := ShareProofFromProto pShareProof in
        match err with
        | Some e => (shareProof, Some e)
        | None => (shareProof, None)
        end
      end
    end
  end.

(** [Tx] allows you to query the transaction results. *)
Definition Tx (env : Environment) (ctx : RpcContext) (hash : bytes)
    (prove : bool) : option ResultTx * option error :=
  if is_null_TxIndex (env_TxIndexer env)
  then (None, Some (fmt_Errorf "transaction indexing is disabled" []))
  else
    let '(r, err) := TxIndexer_Get (env_TxIndexer env) hash in
    match err with
    | Some e => (None, Some e)
    | None =>
      match r with
      | None => (None, Some (fmt_Errorf "tx (%X) not found" [ArgBytes hash]))
      | Some r =>
        let height := TxResult_Height r in
        let index := TxResult_Index r in
        let '(shareProof, err) :=
          if prove then proveTx env height index else (ShareProof_zero, None) in
        match err with
        | Some e => (None, Some e)
        | None =>
          (Some {| ResultTx_Hash := hash;
                   ResultTx_Height := height;
                   ResultTx_Index := index;
                   ResultTx_TxResult := TxResult_Result r;
                   ResultTx_Tx := TxResult_Tx r;
                   ResultTx_Proof := shareProof |}, None)
        end
      end
    end.

(** The comparisons handed to [sort.Slice]. *)
Definition less_desc (a b : TxResult) : bool :=
  if TxResult_Height a =? TxResult_Height b
  then TxResult_Index a >? TxResult_Index b
  else TxResult_Height a >? TxResult_Height b.

Definition less_asc (a b : TxResult) : bool :=
  if TxResult_Height a =? TxResult_Height b
  then TxResult_Index a <? TxResult_Index b
  else TxResult_Height a <? TxResult_Height b.

(** [results[i]]: an index outside the slice panics. *)
Definition index_slice {A} (l : list A) (i : Z) : option A :=
  if i <? 0 then None else l !! Z.to_nat i.

(** The pagination loop of [TxSearch]: [n] iterations remain, [i] is the
    loop variable.  It ends with the page, with the error of [proveTx], or
    in a panic. *)
Fixpoint TxSearch_loop (env : Environment) (prove : bool)
    (results : list TxResult) (n : nat) (i : Z) (apiResults : list ResultTx)
    : outcome (list ResultTx + error) :=
  match n with
  | O => Returns (inl apiResults)
  | S n' =>
    match index_slice results i with
    | None => Panics "index out of range"
    | Some r =>
      let '(shareProof, err) :=
        if prove
        then proveTx env (TxResult_Height r) (TxResult_Index r)
        else (ShareProof_zero, None) in
      match err with
      | Some e => Returns (inr e)
      | None =>
        TxSearch_loop env prove results n' (i + 1)
          (apiResults ++
             [{| ResultTx_Hash := Tx_Hash (TxResult_Tx r);
                 ResultTx_Height := TxResult_Height r;
                 ResultTx_Index := TxResult_Index r;
                 ResultTx_TxResult := TxResult_Result r;
                 ResultTx_Tx := TxResult_Tx r;
                 ResultTx_Proof := shareProof |}])%list
      end
    end
  end.

(** [TxSearch] allows you to query for multiple transactions results. *)
Definition TxSearch (env : Environment) (ctx : RpcContext) (query : string)
    (prove : bool) (pagePtr perPagePtr : option Z) (orderBy : string)
    : outcome (option ResultTxSearch * option error) :=
  if is_null_TxIndex (env_TxIndexer env)
  then Returns (None, Some (errors_New "transaction indexing is disabled"))
  else if Z.of_nat (String.length query) >? maxQueryLength
  then Returns (None, Some (errors_New "maximum query length exceeded"))
  else
    let '(q, err) := query_New query in
    match err with
    | Some e => Returns (None, Some e)
    | None =>
      let '(results, err) :=
        TxIndexer_Search (env_TxIndexer env) (ctx_Context ctx) q in
      match err with
      | Some e => Returns (None, Some e)
      | None =>
        let sorted :=
          if String.eqb orderBy "desc"
          then Some (sort_Slice results less_desc)
          else if String.eqb orderBy "asc" || String.eqb orderBy ""
          then Some (sort_Slice results less_asc)
          else None in
        match sorted with
        | None =>
          Returns (None, Some (errors_New
            "expected order_by to be either `asc` or `desc` or empty"))
        | Some results =>
          let totalCount := Z.of_nat (length results) in
          let perPage := validatePerPage perPagePtr in
          let '(page, err) := validatePage pagePtr perPage totalCount in
          match err with
          | Some e => Returns (None, Some e)
          | None =>
            let skipCount := validateSkipCount page perPage in
            let pageSize :=
              MinInt perPage (wrap_int (totalCount - skipCount)) in
            if pageSize <? 0 then Panics "makeslice: cap out of range"
            else
              match TxSearch_loop env prove results
                      (Z.to_nat (wrap_int (skipCount + pageSize) - skipCount))
                      skipCount [] with
              | Panics why => Panics why
              | Returns (inr e) => Returns (None, Some e)
              | Returns (inl apiResults) =>
                Returns (Some {| ResultTxSearch_Txs := apiResults;
                                 ResultTxSearch_TotalCount := totalCount |},
                         None)
              end
          end
        end
      end
    end.

End TxGo.
End Core.

(* --------------------------------------------------------------------- *)
(** ** The second copy of tx.go (unnamed/part_000)                       *)
(* --------------------------------------------------------------------- *)
Module CoreCopy.
Import Rpc.
Local Open Scope string_scope.
Local Open Scope Z_scope.

Section TxCopy.
Context {T : Types} {I : Imports}.

(** The loop of [loadRawBlock]: [n] parts remain, [i] is the next one. *)
Fixpoint loadRawBlock_loop (bs : BlockStore) (height : Z) (n : nat) (i : Z)
    (buf : bytes) : bytes * option error :=
  match n with
  | O => (buf, None)
  | S n' =>
    match LoadBlockPart bs height i with
    | None =>
      ([], Some (fmt_Errorf "missing block part at height %d part %d"
                   [ArgInt height; ArgInt i]))
    | Some part => loadRawBlock_loop bs height n' (i + 1) (buf ++ Part_Bytes part)%list
    end
  end.

Definition loadRawBlock (bs : BlockStore) (height : Z) : bytes * option error :=
  match LoadBlockMeta bs height with
  | None => ([], Some (fmt_Errorf "no block found for height %d" [ArgInt height]))
  | Some blockMeta =>
    loadRawBlock_loop bs height
      (Z.to_nat (BlockID_PartSetHeader_Total blockMeta)) 0 []
  end.

Definition proveTx (env : Environment) (height index : Z)
    : ShareProof * option error :=
  let pShareProof := PShareProof_zero in
  let shareProof := ShareProof_zero in
  let '(rawBlock, err) := loadRawBlock (env_BlockStore env) height in
  match err with
  | Some e => (shareProof, Some e)
  | None =>
    let '(res, err) :=
      QuerySync (env_ProxyAppQuery env)
        {| RequestQuery_Data := rawBlock;
           RequestQuery_Path :=
             fmt_Sprintf TxInclusionProofQueryPath [ArgInt index] |} in
    match err with
    | Some e => (shareProof, Some e)
    | None =>
      let '(pShareProof, err) := Unmarshal pShareProof (ResponseQuery_Value res) in
      match err with
      | Some e => (shareProof, Some e)
      | None =>
        let '(shareProof, err) := ShareProofFromProto pShareProof in
        match err with
        | Some e => (shareProof, Some e)
        | None => (shareProof, None)
        end
      end
    end
  end.

(** [Tx] allows you to query the transaction results. *)
Definition Tx (env : Environment) (ctx : RpcContext) (hash : bytes)
    (prove : bool) : option ResultTx * option error :=
  if is_null_TxIndex (env_TxIndexer env)
  then (None, Some (fmt_Errorf "transaction indexing is disabled" []))
  else
    let '(r, err) := TxIndexer_Get (env_TxIndexer env) hash in
    match err with
    | Some e => (None, Some e)
    | None =>
      match r with
      | None => (None, Some (fmt_Errorf "tx (%X) not found" [ArgBytes hash]))
      | Some r =>
        let height := TxResult_Height r in
        let index := TxResult_Index r in
        let '(shareProof, err) :=
          if prove then proveTx env height index else (ShareProof_zero, None) in
        match err with
        | Some e => (None, Some e)
        | None =>
          (Some {| ResultTx_Hash := hash;
                   ResultTx_Height := height;
                   ResultTx_Index := index;
                   ResultTx_TxResult := TxResult_Result r;
                   ResultTx_Tx := TxResult_Tx r;
                   ResultTx_Proof := shareProof |}, None)
        end
      end
    end.

(** The comparisons handed to [sort.Slice]. *)
Definition less_desc (a b : TxResult) : bool :=
  if TxResult_Height a =? TxResult_Height b
  then TxResult_Index a >? TxResult_Index b
  else TxResult_Height a >? TxResult_Height b.

Definition less_asc (a b : TxResult) : bool :=
  if TxResult_Height a =? TxResult_Height b
  then TxResult_Index a <? TxResult_Index b
  else TxResult_Height a <? TxResult_Height b.

(** [results[i]]: an index outside the slice panics. *)
Definition index_slice {A} (l : list A) (i : Z) : option A :=
  if i <? 0 then None else l !! Z.to_nat i.

(** The pagination loop of [TxSearch]: [n] iterations remain, [i] is the
    loop variable.  It ends with the page, with the error of [proveTx], or
    in a panic. *)
Fixpoint TxSearch_loop (env : Environment) (prove : bool)
    (results : list TxResult) (n : nat) (i : Z) (apiResults : list ResultTx)
    : outcome (list ResultTx + error) :=
  match n with
  | O => Returns (inl apiResults)
  | S n' =>
    match index_slice results i with
    | None => Panics "index out of range"
    | Some r =>
      let '(shareProof, err) :=
        if prove
        then proveTx env (TxResult_Height r) (TxResult_Index r)
        else (ShareProof_zero, None) in
      match err with
      | Some e => Returns (inr e)
      | None =>
        TxSearch_loop env prove results n' (i + 1)
          (apiResults ++
             [{| ResultTx_Hash := Tx_Hash (TxResult_Tx r);
                 ResultTx_Height := TxResult_Height r;
                 ResultTx_Index := TxResult_Index r;
                 ResultTx_TxResult := TxResult_Result r;
                 ResultTx_Tx := TxResult_Tx r;
                 ResultTx_Proof := shareProof |}])%list
      end
    end
  end.

(** [TxSearch] allows you to query for multiple transactions results.
    The packages are imported as [cmtmath], [cmtquery] and [cmtproto] here;
    the import paths are those of tx.go. *)
Definition TxSearch (env : Environment) (ctx : RpcContext) (query : string)
    (prove : bool) (pagePtr perPagePtr : option Z) (orderBy : string)
    : outcome (option ResultTxSearch * option error) :=
  if is_null_TxIndex (env_TxIndexer env)
  then Returns (None, Some (errors_New "transaction indexing is disabled"))
  else if Z.of_nat (String.length query) >? maxQueryLength
  then Returns (None, Some (errors_New "maximum query length exceeded"))
  else
    let '(q, err) := query_New query in
    match err with
    | Some e => Returns (None, Some e)
    | None =>
      let '(results, err) :=
        TxIndexer_Search (env_TxIndexer env) (ctx_Context ctx) q in
      match err with
      | Some e => Returns (None, Some e)
      | None =>
        let sorted :=
          if String.eqb orderBy "desc"
          then Some (sort_Slice results less_desc)
          else if String.eqb orderBy "asc" || String.eqb orderBy ""
          then Some (sort_Slice results less_asc)
          else None in
        match sorted with
        | None =>
          Returns (None, Some (errors_New
            "expected order_by to be either `asc` or `desc` or empty"))
        | Some results =>
          let totalCount := Z.of_nat (length results) in
          let perPage := validatePerPage perPagePtr in
          let '(page, err) := validatePage pagePtr perPage totalCount in
          match err with
          | Some e => Returns (None, Some e)
          | None =>
            let skipCount := validateSkipCount page perPage in
            let pageSize :=
              MinInt perPage (wrap_int (totalCount - skipCount)) in
            if pageSize <? 0 then Panics "makeslice: cap out of range"
            else
              match TxSearch_loop env prove results
                      (Z.to_nat (wrap_int (skipCount + pageSize) - skipCount))
                      skipCount [] with
              | Panics why => Panics why
              | Returns (inr e) => Returns (None, Some e)
              | Returns (inl apiResults) =>
                Returns (Some {| ResultTxSearch_Txs := apiResults;
                                 ResultTxSearch_TotalCount := totalCount |},
                         None)
              end
          end
        end
      end
    end.

(** [TxSearchMatchEvents] allows you to query for multiple transactions
    results and match the query attributes to a common event. *)
Definition TxSearchMatchEvents (env : Environment) (ctx : RpcContext)
    (query : string) (prove : bool) (pagePtr perPagePtr : option Z)
    (orderBy : string) (matchEvents : bool)
    : outcome (option ResultTxSearch * option error) :=
  let query :=
    if matchEvents
    then "match.events = 1 AND " ++ query
    else "match.events = 0 AND " ++ query in
  TxSearch env ctx query prove pagePtr perPagePtr orderBy.

End TxCopy.
End CoreCopy.

(* --------------------------------------------------------------------- *)
(** ** An instance of the imported parts, for the examples                *)
(* --------------------------------------------------------------------- *)
Module RpcExample.
Import Rpc.
Local Open Scope Z_scope.

(** Proofs and queries are byte strings and texts here. *)
#[local] Instance types : Types := {|
  ShareProof := bytes;
  ShareProof_zero := [];
  PShareProof := bytes;
  PShareProof_zero := [];
  ResponseDeliverTx := unit;
  Query := string;
  GoContext := unit;
  RpcContext := unit;
|}.

(** Insertion of a record before the first one it is less than. *)
Fixpoint insert_by {A} (less : A → A → bool) (x : A) (l : list A) : list A :=
  match l with
  | [] => [x]
  | y :: l' => if less x y then x :: l else y :: insert_by less x l'
  end.

Definition insertion_sort {A} (l : list A) (less : A → A → bool) : list A :=
  fold_right (insert_by less) [] l.

(** Pagination helpers for the examples: 30 entries per page by default,
    100 at most, pages counted from 1. *)
Definition example_validatePerPage (perPagePtr : option Z) : Z :=
  match perPagePtr with
  | None => 30
  | Some perPage =>
    if perPage <? 1 then 30 else if perPage >? 100 then 100 else perPage
  end.

Definition example_validatePage (pagePtr : option Z) (perPage totalCount : Z)
    : Z * option error :=
  match pagePtr with
  | None => (1, None)
  | Some page =>
    let pages := Z.quot (totalCount - 1) perPage + 1 in
    let pages := if pages =? 0 then 1 else pages in
    if (page <=? 0) || (page >? pages)
    then (1, Some (fmt_Errorf "page should be within [1, %d] range, given %d"
                     [ArgInt pages; ArgInt page]))
    else (page, None)
  end.

Definition example_validateSkipCount (page perPage : Z) : Z :=
  let skipCount := (page - 1) * perPage in
  if skipCount <? 0 then 0 else skipCount.

Definition imports : Imports (T := types) := {|
  query_New := λ query, (query, None);
  ctx_Context := λ ctx, ctx;
  sort_Slice := insertion_sort;
  fmt_Sprintf := λ format _, format;
  TxInclusionProofQueryPath := "custom/txInclusionProof/%d"%string;
  Unmarshal := λ _ value, (value, None);
  ShareProofFromProto := λ p, (p, None);
  Tx_Hash := λ tx, rev tx;
  maxQueryLength := 512;
  validatePerPage := example_validatePerPage;
  validatePage := example_validatePage;
  validateSkipCount := example_validateSkipCount;
  MinInt := Z.min;
|}.

(** Three indexed transactions. *)
Definition tx1 : TxResult (T := types) :=
  {| TxResult_Height := 5; TxResult_Index := 0;
     TxResult_Tx := [Byte.x01]; TxResult_Result := () |}.
Definition tx2 : TxResult (T := types) :=
  {| TxResult_Height := 7; TxResult_Index := 1;
     TxResult_Tx := [Byte.x02]; TxResult_Result := () |}.
Definition tx3 : TxResult (T := types) :=
  {| TxResult_Height := 7; TxResult_Index := 0;
     TxResult_Tx := [Byte.x03]; TxResult_Result := () |}.

(** An environment whose indexer knows the three transactions under the
    one-byte hashes 1, 2 and 3, and whose block store is empty. *)
Definition env : Environment (T := types) := {|
  env_TxIndexer := {|
    is_null_TxIndex := false;
    TxIndexer_Get := λ hash,
      (find (λ r, bool_decide (TxResult_Tx r = hash)) [tx1; tx2; tx3], None);
    TxIndexer_Search := λ _ _, ([tx1; tx2; tx3], None) |};
  env_BlockStore := {|
    LoadBlockMeta := λ _, None;
    LoadBlockPart := λ _ _, None |};
  env_ProxyAppQuery := {|
    QuerySync := λ req,
      ({| ResponseQuery_Value := RequestQuery_Data req;
          ResponseQuery_Log := EmptyString |}, None) |};
|}.

End RpcExample.

(* --------------------------------------------------------------------- *)
(** ** ProveShares (rpc/core/tx.go, and word for word in the second copy)  *)
(* --------------------------------------------------------------------- *)
Module Shares.
Import Rpc.
Local Open Scope string_scope.
Local Open Scope Z_scope.

Section ProveSharesGo.
Context {T : Types} {I : Imports}.

(** [consts.ShareInclusionProofQueryPath], declared in another package. *)
Variable ShareInclusionProofQueryPath : string.

(** [ProveShares] tells a nil [Value] from an empty one, so the response
    of the application is read here with its [Value] as a pointer would
    be: [None] is the nil slice. *)
Record ResponseQueryN := {
  ResponseQueryN_Value : option bytes;
  ResponseQueryN_Log : string;
}.

(** [proxy.AppConnQuery] with that reading of the response. *)
Record AppConnQueryN := {
  QuerySyncN : RequestQuery → ResponseQueryN * option error;
}.

(** [ProveShares] creates an NMT proof for a set of shares to a set of
    rows.  [bs] and [app] are [env.BlockStore] and [env.ProxyAppQuery];
    the shares are [uint64]s. *)
Definition ProveShares (bs : BlockStore) (app : AppConnQueryN)
    (height startShare endShare : Z) : ShareProof * option error :=
  let pShareProof := PShareProof_zero in
  let shareProof := ShareProof_zero in
  let '(rawBlock, err) := Core.loadRawBlock bs height in
  match err with
  | Some e => (shareProof, Some e)
  | None =>
    let '(res, err) :=
      QuerySyncN app
        {| RequestQuery_Data := rawBlock;
           RequestQuery_Path :=
             fmt_Sprintf ShareInclusionProofQueryPath
               [ArgInt startShare; ArgInt endShare] |} in
    match err with
    | Some e => (shareProof, Some e)
    | None =>
      if bool_decide (ResponseQueryN_Value res = None)
         && negb (String.eqb (ResponseQueryN_Log res) "")
      then (ShareProof_zero, Some (errors_New (ResponseQueryN_Log res)))
      else
        let '(pShareProof, err) :=
          Unmarshal pShareProof (default [] (ResponseQueryN_Value res)) in
        match err with
        | Some e => (shareProof, Some e)
        | None =>
          let '(shareProof, err) := ShareProofFromProto pShareProof in
          match err with
          | Some e => (shareProof, Some e)
          | None => (shareProof, None)
          end
        end
    end
  end.

End ProveSharesGo.
End Shares.

(* --------------------------------------------------------------------- *)
(** ** Reading a page of TxSearch                                          *)
(* --------------------------------------------------------------------- *)
Module Paging.
Import Rpc.
Local Open Scope Z_scope.

Section Reading.
Context {T : Types} {I : Imports}.

(** The entry [r] of a page presents the indexed record [rec]: the fields
    the loop of [TxSearch] copies, the hash it computes, and the proof it
    asks [proveTx] for (the zero proof without [prove]). *)
Definition presents (env : Environment) (prove : bool)
    (rec : TxResult) (r : ResultTx) : Prop :=
  r = {| ResultTx_Hash := Tx_Hash (TxResult_Tx rec);
         ResultTx_Height := TxResult_Height rec;
         ResultTx_Index := TxResult_Index rec;
         ResultTx_TxResult := TxResult_Result rec;
         ResultTx_Tx := TxResult_Tx rec;
         ResultTx_Proof := ResultTx_Proof r |}
  ∧ if prove
    then Core.proveTx env (TxResult_Height rec) (TxResult_Index rec)
         = (ResultTx_Proof r, None)
    else ResultTx_Proof r = ShareProof_zero.

(** The comparison [TxSearch] sorts with, by the value of [orderBy]
    ("desc", or else "asc" or empty). *)
Definition less_of (orderBy : string) : TxResult → TxResult → bool :=
  if String.eqb orderBy "desc" then Core.less_desc else Core.less_asc.

(** What [sort.Slice] promises of the slice it has sorted: no element is
    less than an element before it. *)
Definition sorted_by {A} (less : A → A → bool) (l : list A) : Prop :=
  ∀ i j a b, (i < j)%nat → l !! i = Some a → l !! j = Some b →
             less b a = false.

(** The entry at (height, index) is not after the one at (height',
    index') in ascending order of height, then index. *)
Definition not_after (height index height' index' : Z) : Prop :=
  height < height' ∨ (height = height' ∧ index ≤ index').

End Reading.
End Paging.

(* --------------------------------------------------------------------- *)
(** ** [TxSearch] with the records as pointers                            *)
(* --------------------------------------------------------------------- *)
(** [Search] returns a slice of pointers to records, and [TxSearch]
    dereferences them, in the comparisons it hands to [sort.Slice] and in
    its loop.  [Core.TxSearch] reads the slice as one of records, which
    leaves out the nil pointer; this module reads it as Go has it, a nil
    pointer being [None], for statements on whether [TxSearch] panics. *)
Module Pointers.
Import Rpc.
Local Open Scope string_scope.
Local Open Scope Z_scope.

Section TxSearchGo.
Context {T : Types} {I : Imports}.

(** The standard library's [sort.Slice] over a slice of pointers, with a
    comparison that may panic: the sorted slice, or the panic of a
    comparison it made. *)
Variable sort_Slice_ptr :
  list (option TxResult) →
  (option TxResult → option TxResult → outcome bool) →
  outcome (list (option TxResult)).

(** The comparisons handed to [sort.Slice]: [results[i].Height] and
    [results[j].Height] are read first, through the pointers. *)
Definition less_ptr (less : TxResult → TxResult → bool)
    (a b : option TxResult) : outcome bool :=
  match a, b with
  | Some a, Some b => Returns (less a b)
  | _, _ => Panics "invalid memory address or nil pointer dereference"
  end.

(** The pagination loop of [TxSearch]: [r := results[i]] may be out of
    range, and [r.Height], [r.Index] and [r.Tx] are read through [r]. *)
Fixpoint TxSearch_loop (env : Environment) (prove : bool)
    (results : list (option TxResult)) (n : nat) (i : Z)
    (apiResults : list ResultTx) : outcome (list ResultTx + error) :=
  match n with
  | O => Returns (inl apiResults)
  | S n' =>
    match Core.index_slice results i with
    | None => Panics "index out of range"
    | Some None => Panics "invalid memory address or nil pointer dereference"
    | Some (Some r) =>
      let '(shareProof, err) :=
        if prove
        then Core.proveTx env (TxResult_Height r) (TxResult_Index r)
        else (ShareProof_zero, None) in
      match err with
      | Some e => Returns (inr e)
      | None =>
        TxSearch_loop env prove results n' (i + 1)
          (apiResults ++
             [{| ResultTx_Hash := Tx_Hash (TxResult_Tx r);
                 ResultTx_Height := TxResult_Height r;
                 ResultTx_Index := TxResult_Index r;
                 ResultTx_TxResult := TxResult_Result r;
                 ResultTx_Tx := TxResult_Tx r;
                 ResultTx_Proof := shareProof |}])%list
      end
    end
  end.

(** [TxSearch] allows you to query for multiple transactions results.
    [Search] is the method of [env.TxIndexer] with its result as the
    slice of pointers; the rest of the environment is read from [env]. *)
Definition TxSearch
    (Search : GoContext → Query → list (option TxResult) * option error)
    (env : Environment) (ctx : RpcContext) (query : string)
    (prove : bool) (pagePtr perPagePtr : option Z) (orderBy : string)
    : outcome (option ResultTxSearch * option error) :=
  if is_null_TxIndex (env_TxIndexer env)
  then Returns (None, Some (errors_New "transaction indexing is disabled"))
  else if Z.of_nat (String.length query) >? maxQueryLength
  then Returns (None, Some (errors_New "maximum query length exceeded"))
  else
    let '(q, err) := query_New query in
    match err with
    | Some e => Returns (None, Some e)
    | None =>
      let '(results, err) := Search (ctx_Context ctx) q in
      match err with
      | Some e => Returns (None, Some e)
      | None =>
        let sorted :=
          if String.eqb orderBy "desc"
          then Some (sort_Slice_ptr results (less_ptr Core.less_desc))
          else if String.eqb orderBy "asc" || String.eqb orderBy ""
          then Some (sort_Slice_ptr results (less_ptr Core.less_asc))
          else None in
        match sorted with
        | None =>
          Returns (None, Some (errors_New
            "expected order_by to be either `asc` or `desc` or empty"))
        | Some (Panics why) => Panics why
        | Some (Returns results) =>
          let totalCount := Z.of_nat (length results) in
          let perPage := validatePerPage perPagePtr in
          let '(page, err) := validatePage pagePtr perPage totalCount in
          match err with
          | Some e => Returns (None, Some e)
          | None =>
            let skipCount := validateSkipCount page perPage in
            let pageSize :=
              MinInt perPage (wrap_int (totalCount - skipCount)) in
            if pageSize <? 0 then Panics "makeslice: cap out of range"
            else
              match TxSearch_loop env prove results
                      (Z.to_nat (wrap_int (skipCount + pageSize) - skipCount))
                      skipCount [] with
              | Panics why => Panics why
              | Returns (inr e) => Returns (None, Some e)
              | Returns (inl apiResults) =>
                Returns (Some {| ResultTxSearch_Txs := apiResults;
                                 ResultTxSearch_TotalCount := totalCount |},
                         None)
              end
          end
        end
      end
    end.

End TxSearchGo.
End Pointers.

(* --------------------------------------------------------------------- *)
(** ** A sort and searches for the examples with pointers                 *)
(* --------------------------------------------------------------------- *)
Module PointersExample.
Import Rpc.

(** Insertion before the first element the new one is less than, with a
    comparison that may panic. *)
Fixpoint insert_by {A} (less : A → A → outcome bool) (x : A) (l : list A)
    : outcome (list A) :=
  match l with
  | [] => Returns [x]
  | y :: l' =>
    match less x y with
    | Panics why => Panics why
    | Returns true => Returns (x :: l)
    | Returns false =>
      match insert_by less x l' with
      | Panics why => Panics why
      | Returns l'' => Returns (y :: l'')
      end
    end
  end.

Definition insertion_sort {A} (l : list A) (less : A → A → outcome bool)
    : outcome (list A) :=
  fold_right (λ x sorted,
                match sorted with
                | Panics why => Panics why
                | Returns sorted => insert_by less x sorted
                end) (Returns []) l.

(** The search of the example indexer, its three records behind
    pointers. *)
Definition Search (_ : GoContext (Types := RpcExample.types))
    (_ : Query (Types := RpcExample.types))
    : list (option (TxResult (T := RpcExample.types))) * option error :=
  ([Some RpcExample.tx1; Some RpcExample.tx2; Some RpcExample.tx3], None).

(** A search whose second record is a nil pointer. *)
Definition Search_with_nil (_ : GoContext (Types := RpcExample.types))
    (_ : Query (Types := RpcExample.types))
    : list (option (TxResult (T := RpcExample.types))) * option error :=
  ([Some RpcExample.tx1; None], None).

End PointersExample.

(* --------------------------------------------------------------------- *)
(** ** A block store and an application for the examples                  *)
(* --------------------------------------------------------------------- *)
Module BlockExample.
Import Rpc.
Local Open Scope Z_scope.

(** The block of height 5 is stored in two parts; no other block is
    stored, and the block of height 6 has lost its second part. *)
Definition part0 : Part := {| Part_Bytes := [Byte.x0a; Byte.x0b] |}.
Definition part1 : Part := {| Part_Bytes := [Byte.x0c] |}.

Definition store : BlockStore := {|
  LoadBlockMeta := λ height,
    if (height =? 5) || (height =? 6)
    then Some {| BlockID_PartSetHeader_Total := 2 |} else None;
  LoadBlockPart := λ height i,
    if (height =? 5) && (i =? 0) then Some part0
    else if (height =? 5) && (i =? 1) then Some part1
    else if (height =? 6) && (i =? 0) then Some part0
    else None;
|}.

(** The environment of [RpcExample] with this block store: the
    application answers a query with the data it was sent. *)
Definition env : Environment (T := RpcExample.types) := {|
  env_TxIndexer := env_TxIndexer RpcExample.env;
  env_BlockStore := store;
  env_ProxyAppQuery := env_ProxyAppQuery RpcExample.env;
|}.

(** An application that has no value for any query and says so in its
    log. *)
Definition silent_app : Shares.AppConnQueryN := {|
  Shares.QuerySyncN := λ _,
    ({| Shares.ResponseQueryN_Value := None;
        Shares.ResponseQueryN_Log := "no shares"%string |}, None);
|}.

End BlockExample.

(* --------------------------------------------------------------------- *)
(** ** Queries for the examples                                           *)
(* --------------------------------------------------------------------- *)
Module SearchExample.

(** A query of 500 bytes: within the 512 bytes the example allows, but
    not once 21 bytes are put in front of it. *)
Definition long_query : string :=
  String.concat "" (repeat "a"%string 500).

End SearchExample.

(* --------------------------------------------------------------------- *)
(** ** The dissemination and peer-reconciliation protocol                 *)
(* --------------------------------------------------------------------- *)
(** The mempool reactor itself is not among the sources; this module is
    its model, written from the design document section by section.  The
    components run as one sequential machine: every operation and every
    handler below is one atomic step, and the reaction of the
    Dissemination Engine to an admission or a removal (the queue of §4.1)
    is taken within the step that causes it.

    Where the document leaves a choice, the model takes these readings:
    - [Delivered] is terminal (§4.3): an announcement by a peer, or a
      duplicate body from it (§7), for a pair that is delivered changes
      nothing; a request of the peer is answered as §4.3 (2) words it,
      whatever the state of the pair;
    - [Removed] ends the tracking of a pair for the time the transaction
      was in the pool; a later announcement or admission of the same hash
      (§4.2 allows a fresh submission) tracks the pair afresh;
    - the engine reacts to every [Remove], also for a hash the store does
      not hold (a block may commit a transaction the node only asked for);
    - no withdrawal signal is sent on removal (§4.4 makes it optional). *)
Module Mempool.

(** Modelled from the spec: §3, [protocolVersion], one of push and pull. *)
Inductive Mode := push | pull.

(** Modelled from the spec: §4.3, the states of a (peer, hash) pair. *)
Inductive Phase := Unknown | Announced | Requested | Delivered | Removed.

(** Modelled from the spec: §4.3, [Delivered] and [Removed] are the
    terminal states. *)
Definition terminal (ph : Phase) : bool :=
  match ph with
  | Delivered | Removed => true
  | Unknown | Announced | Requested => false
  end.

(** Modelled from the spec: §4.2 and §6, the outcome of validation. *)
Inductive Verdict := Valid | Invalid (reason : string).

(** Modelled from the spec: §4.1 and §7, the results of [Admit]. *)
Inductive RejectReason := ValidationRejected (reason : string) | CapacityExceeded.
Inductive AdmitResult := Added | AlreadyPresent | Rejected (why : RejectReason).

#[global] Instance Phase_eq_dec : EqDecision Phase.
Proof. solve_decision. Defined.
#[global] Instance Mode_eq_dec : EqDecision Mode.
Proof. solve_decision. Defined.

(** Modelled from the spec: what the protocol is given (§6): the content
    hash of a transaction, the application validator [Check(rawTx)], the
    capacity of the pool (§4.1) and the ceiling of [wantedFromPeer]
    (§4.4). *)
Class Setting (Hash : Type) := {
  digest : bytes → Hash;
  CheckTx : bytes → Verdict;
  capacity : nat;
  want_budget : nat;
}.

Section Protocol.
Context {Peer Hash : Type} `{Countable Peer} `{Countable Hash}.
Context {cfg : Setting Hash}.

(** Modelled from the spec: the four message kinds of §6. *)
Inductive Msg :=
| SeenTx (h : Hash)
| WantTx (h : Hash)
| Tx (h : Hash) (body : bytes)
| NotAvailable (h : Hash).

(** Modelled from the spec: the Transaction Record of §3. *)
Record TxRecord := {
  hash : Hash;
  raw : bytes;
  size : nat;
  admittedAt : nat;
  senderPeer : option Peer;
}.

(** Modelled from the spec: the Peer Reconciliation State of §3, together
    with the state of each (peer, hash) pair of §4.3 ([Unknown] when the
    hash has no entry). *)
Record PeerState := {
  seenByPeer : gset Hash;
  wantedByPeer : gset Hash;
  wantedFromPeer : gset Hash;
  protocolVersion : Mode;
  phase : gmap Hash Phase;
}.

(** Modelled from the spec: the event log of §8, newest event first:
    connections made and ended, messages sent to a peer, invocations of
    the application validator, and the observability events of [Admit]
    and [Remove] (§4.1). *)
Inductive Event :=
| EvConnected (p : Peer)
| EvDisconnected (p : Peer)
| EvSent (p : Peer) (m : Msg)
| EvValidated (h : Hash)
| EvAdmit (h : Hash) (res : AdmitResult)
| EvRemove (h : Hash) (removed : bool).

(** Modelled from the spec: the node: the Transaction Store in admission
    order, the Validity Cache, one reconciliation state per connected peer,
    the next [admittedAt] and the event log. *)
Record State := {
  pool : list TxRecord;
  cache : gmap Hash Verdict;
  peers : gmap Peer PeerState;
  clock : nat;
  log : list Event;
}.

(** Modelled from the spec: a node that has just started: nothing is
    persisted across restarts (§1). *)
Definition init : State :=
  {| pool := []; cache := ∅; peers := ∅; clock := 0; log := [] |}.

Definition set_peers (f : gmap Peer PeerState → gmap Peer PeerState)
    (s : State) : State :=
  {| pool := pool s; cache := cache s; peers := f (peers s);
     clock := clock s; log := log s |}.

Definition record (evs : list Event) (s : State) : State :=
  {| pool := pool s; cache := cache s; peers := peers s;
     clock := clock s; log := evs ++ log s |}.

Definition send (p : Peer) (m : Msg) : State → State := record [EvSent p m].

(** *** Peer Reconciliation State (§4.3) *)

Definition phase_of (ps : PeerState) (h : Hash) : Phase :=
  default Unknown (phase ps !! h).

Definition set_phase (h : Hash) (ph : Phase) (ps : PeerState) : PeerState :=
  {| seenByPeer := seenByPeer ps; wantedByPeer := wantedByPeer ps;
     wantedFromPeer := wantedFromPeer ps;
     protocolVersion := protocolVersion ps;
     phase := <[h := ph]> (phase ps) |}.

(** Modelled from the spec: "created on peer connect". *)
Definition fresh (v : Mode) : PeerState :=
  {| seenByPeer := ∅; wantedByPeer := ∅; wantedFromPeer := ∅;
     protocolVersion := v; phase := ∅ |}.

(** Modelled from the spec: "[Delivered]: body exchanged; terminal success
    state, recorded in [seenByPeer]"; by the invariant of §3 a delivered
    hash is in neither wanted set. *)
Definition to_Delivered (h : Hash) (ps : PeerState) : PeerState :=
  {| seenByPeer := seenByPeer ps ∪ {[h]};
     wantedByPeer := wantedByPeer ps ∖ {[h]};
     wantedFromPeer := wantedFromPeer ps ∖ {[h]};
     protocolVersion := protocolVersion ps;
     phase := <[h := Delivered]> (phase ps) |}.

(** Modelled from the spec: "[Removed]: ... while in any non-terminal state
    for this peer; any outstanding request for it is cancelled and the hash
    is dropped from all three tracking sets for that peer". *)
Definition to_Removed (h : Hash) (ps : PeerState) : PeerState :=
  if terminal (phase_of ps h) then ps
  else {| seenByPeer := seenByPeer ps ∖ {[h]};
          wantedByPeer := wantedByPeer ps ∖ {[h]};
          wantedFromPeer := wantedFromPeer ps ∖ {[h]};
          protocolVersion := protocolVersion ps;
          phase := <[h := Removed]> (phase ps) |}.

(** Modelled from the spec: "[Announced]: peer told us (or we told peer) it
    has/knows the hash, body not yet exchanged".  A pair that is already
    requested or delivered stays where it is; a removed pair is tracked
    afresh. *)
Definition to_Announced (h : Hash) (ps : PeerState) : PeerState :=
  match phase_of ps h with
  | Requested | Delivered => ps
  | Unknown | Announced | Removed => set_phase h Announced ps
  end.

(** Modelled from the spec: [seenByPeer] grows "via its own SeenTx
    announcement". *)
Definition heard (h : Hash) (ps : PeerState) : PeerState :=
  to_Announced h
    {| seenByPeer := seenByPeer ps ∪ {[h]}; wantedByPeer := wantedByPeer ps;
       wantedFromPeer := wantedFromPeer ps;
       protocolVersion := protocolVersion ps; phase := phase ps |}.

(** Modelled from the spec: "[Requested]: explicit pull request issued,
    awaiting body", in the two directions: a hash we request from the peer
    enters [wantedFromPeer], a hash the peer requests from us enters
    [wantedByPeer]. *)
Definition requested_from (h : Hash) (ps : PeerState) : PeerState :=
  {| seenByPeer := seenByPeer ps; wantedByPeer := wantedByPeer ps;
     wantedFromPeer := wantedFromPeer ps ∪ {[h]};
     protocolVersion := protocolVersion ps;
     phase := <[h := Requested]> (phase ps) |}.

Definition requested_by (h : Hash) (ps : PeerState) : PeerState :=
  {| seenByPeer := seenByPeer ps; wantedByPeer := wantedByPeer ps ∪ {[h]};
     wantedFromPeer := wantedFromPeer ps;
     protocolVersion := protocolVersion ps;
     phase := <[h := Requested]> (phase ps) |}.

(** Modelled from the spec: §5, "a [Requested] entry not delivered within
    a bounded window reverts to [Announced]". *)
Definition reverted (h : Hash) (ps : PeerState) : PeerState :=
  {| seenByPeer := seenByPeer ps; wantedByPeer := wantedByPeer ps;
     wantedFromPeer := wantedFromPeer ps ∖ {[h]};
     protocolVersion := protocolVersion ps;
     phase := <[h := Announced]> (phase ps) |}.

(** *** Transaction Store (§4.1) and Validity Cache (§4.2) *)

Definition lookup_tx (h : Hash) (txs : list TxRecord) : option TxRecord :=
  find (λ r, bool_decide (hash r = h)) txs.

(** Modelled from the spec: [Contains(hash)]. *)
Definition Contains (s : State) (h : Hash) : bool :=
  match lookup_tx h (pool s) with Some _ => true | None => false end.

(** Modelled from the spec: [Iterate()], the records "ordered by
    [admittedAt] ascending", as the store holds them at the call. *)
Definition Iterate (s : State) : list TxRecord := pool s.

(** Modelled from the spec: [Validate(hash, raw)], "memoized per hash":
    the application validator runs only for a hash without an entry. *)
Definition Validate (h : Hash) (body : bytes) (s : State) : Verdict * State :=
  match cache s !! h with
  | Some v => (v, s)
  | None =>
    let v := CheckTx body in
    (v, {| pool := pool s; cache := <[h := v]> (cache s); peers := peers s;
           clock := clock s; log := EvValidated h :: log s |})
  end.

(** Whether some reconciliation state still refers to the hash. *)
Definition referenced (s : State) (h : Hash) : bool :=
  bool_decide (map_Exists (λ _ ps,
    h ∈ seenByPeer ps ∪ wantedByPeer ps ∪ wantedFromPeer ps) (peers s)).

(** Modelled from the spec: [Forget(hash)] "drops a memoized entry once
    both the Transaction Store and every Peer Reconciliation State no
    longer reference it". *)
Definition Forget (h : Hash) (s : State) : State :=
  if Contains s h || referenced s h then s
  else {| pool := pool s; cache := delete h (cache s); peers := peers s;
          clock := clock s; log := log s |}.

(** *** Dissemination Engine (§4.4) *)

(** Modelled from the spec: the algorithm per newly admitted transaction,
    for one connected peer [p] with state [ps]: the new state of the peer
    and the messages sent to it. *)
Definition fan_out_peer (h : Hash) (body : bytes) (origin : option Peer)
    (p : Peer) (ps : PeerState) : PeerState * list Msg :=
  if decide (origin = Some p) then (ps, [])
  else if decide (h ∈ seenByPeer ps) then (ps, [])
  else match protocolVersion ps with
       | push => (to_Delivered h ps, [Tx h body])
       | pull => (to_Announced h ps, [SeenTx h])
       end.

Definition fan_out (h : Hash) (body : bytes) (origin : option Peer)
    (s : State) : State :=
  {| pool := pool s; cache := cache s;
     peers := map_imap (λ p ps, Some (fan_out_peer h body origin p ps).1)
                (peers s);
     clock := clock s;
     log := flat_map (λ '(p, ps),
                EvSent p <$> (fan_out_peer h body origin p ps).2)
              (map_to_list (peers s)) ++ log s |}.

(** Modelled from the spec: [Admit], which "inserts iff hash absent and
    Validity Cache reports valid; rejects on invalid or on pool-capacity
    exhaustion", emits one observability event, and on success triggers
    the fan-out "to all peers except its origin". *)
Definition Admit (body : bytes) (origin : option Peer) (s : State)
    : AdmitResult * State :=
  let h := digest body in
  let '(v, s1) := Validate h body s in
  match v with
  | Invalid reason =>
    let res := Rejected (ValidationRejected reason) in
    (res, record [EvAdmit h res] s1)
  | Valid =>
    if Contains s1 h then (AlreadyPresent, record [EvAdmit h AlreadyPresent] s1)
    else if decide (capacity ≤ length (pool s1))
    then (Rejected CapacityExceeded,
          record [EvAdmit h (Rejected CapacityExceeded)] s1)
    else
      let rec := {| hash := h; raw := body; size := length body;
                    admittedAt := clock s1; senderPeer := origin |} in
      (Added,
       fan_out h body origin
         {| pool := pool s1 ++ [rec]; cache := cache s1; peers := peers s1;
            clock := S (clock s1); log := EvAdmit h Added :: log s1 |})
  end.

(** Modelled from the spec: [Remove(hash)] "removes if present ... returns
    whether removal occurred", emits one observability event; the engine
    moves the non-terminal pairs of the hash to [Removed] (§4.4, without the
    optional withdrawal signal), and the cache entry of a transaction that
    left the store is evicted (§3). *)
Definition Remove (h : Hash) (s : State) : bool * State :=
  let present := Contains s h in
  (present,
   {| pool := filter (λ r, hash r ≠ h) (pool s);
      cache := if present then delete h (cache s) else cache s;
      peers := to_Removed h <$> peers s;
      clock := clock s;
      log := EvRemove h present :: log s |}).

Definition set_peer (p : Peer) (ps : PeerState) : State → State :=
  set_peers <[p := ps]>.

(** Modelled from the spec: §4.4, the bounded outstanding-want budget: a
    [WantTx] goes out unless the hash is already requested from this peer
    or the ceiling is reached, in which case it is deferred. *)
Definition try_request (p : Peer) (h : Hash) (ps : PeerState) (s : State)
    : State :=
  if decide (h ∈ wantedFromPeer ps) then set_peer p ps s
  else if decide (base.size (wantedFromPeer ps) < want_budget)
  then send p (WantTx h) (set_peer p (requested_from h ps) s)
  else set_peer p ps s.

(** Modelled from the spec: §4.3 (1), [SeenTx(hash)] from a peer.  A
    message that refers to a peer that is not connected is dropped (§7). *)
Definition onSeenTx (p : Peer) (h : Hash) (s : State) : State :=
  match peers s !! p with
  | None => s
  | Some ps =>
    if decide (phase_of ps h = Delivered) then s
    else if Contains s h then set_peer p (heard h ps) s
    else try_request p h (heard h ps) s
  end.

(** Modelled from the spec: §4.3 (2), [WantTx(hash)] from a peer: "if we
    hold it, transition to [Requested] then immediately respond with the
    body and transition to [Delivered]; if we do not hold it ... respond
    with an explicit not-available signal and transition to [Removed]".
    The rule has no condition on the state of the pair: a request for a
    hash that was never announced, or for one whose body the peer already
    has, is served like any other. *)
Definition onWantTx (p : Peer) (h : Hash) (s : State) : State :=
  match peers s !! p with
  | None => s
  | Some ps =>
    match lookup_tx h (pool s) with
    | None => send p (NotAvailable h) (set_peer p (to_Removed h ps) s)
    | Some r =>
      send p (Tx h (raw r))
        (set_peer p (to_Delivered h (requested_by h ps)) s)
    end
  end.

(** Modelled from the spec: §4.3 (3), [Tx(hash, body)] from a peer: "on
    receipt, validate via §4.2, admit via §4.1 if valid, transition (peer,
    hash) to [Delivered], and mark [seenByPeer]".  A duplicate for an
    already delivered hash is a no-op (§7). *)
Definition onTx (p : Peer) (body : bytes) (s : State) : State :=
  match peers s !! p with
  | None => s
  | Some ps =>
    let h := digest body in
    if decide (phase_of ps h = Delivered) then s
    else (Admit body (Some p) (set_peer p (to_Delivered h ps) s)).2
  end.

(** Modelled from the spec: the response "not available" to a request of
    ours (§4.4): the request is cleared and the pair is [Removed]. *)
Definition onNotAvailable (p : Peer) (h : Hash) (s : State) : State :=
  match peers s !! p with
  | None => s
  | Some ps =>
    if decide (h ∈ wantedFromPeer ps) then set_peer p (to_Removed h ps) s
    else s
  end.

(** Modelled from the spec: "created on peer connect, destroyed (and all
    sets discarded) on peer disconnect". *)
Definition onConnect (p : Peer) (v : Mode) (s : State) : State :=
  match peers s !! p with
  | Some _ => s
  | None => record [EvConnected p] (set_peer p (fresh v) s)
  end.

Definition onDisconnect (p : Peer) (s : State) : State :=
  match peers s !! p with
  | None => s
  | Some _ => record [EvDisconnected p] (set_peers (delete p) s)
  end.

(** Modelled from the spec: §5, the timeout of a request of ours. *)
Definition onTimeout (p : Peer) (h : Hash) (s : State) : State :=
  match peers s !! p with
  | None => s
  | Some ps =>
    if decide (phase_of ps h = Requested ∧ h ∈ wantedFromPeer ps)
    then set_peer p (reverted h ps) s
    else s
  end.

(** Modelled from the spec: §4.4, a deferred (or timed out) request is
    issued once a slot is free: the peer has announced the hash, we do not
    hold it. *)
Definition onRetry (p : Peer) (h : Hash) (s : State) : State :=
  match peers s !! p with
  | None => s
  | Some ps =>
    if decide (phase_of ps h = Announced ∧ h ∈ seenByPeer ps)
    then (if Contains s h then s else try_request p h ps s)
    else s
  end.

(** *** The machine *)

(** Modelled from the spec: what happens to the node (§5, §6): a local
    submission, the transport's notifications and messages, a block commit
    or invalidation, the forgetting of a cache entry, a timeout, a
    retry. *)
Inductive Input :=
| Submit (body : bytes)
| PeerConnect (p : Peer) (v : Mode)
| PeerDisconnect (p : Peer)
| RecvSeenTx (p : Peer) (h : Hash)
| RecvWantTx (p : Peer) (h : Hash)
| RecvTx (p : Peer) (body : bytes)
| RecvNotAvailable (p : Peer) (h : Hash)
| Commit (h : Hash)
| Forgotten (h : Hash)
| TimedOut (p : Peer) (h : Hash)
| Retry (p : Peer) (h : Hash).

(** Modelled from the spec: the node takes one input at a time. *)
Definition step (i : Input) (s : State) : State :=
  match i with
  | Submit body => (Admit body None s).2
  | PeerConnect p v => onConnect p v s
  | PeerDisconnect p => onDisconnect p s
  | RecvSeenTx p h => onSeenTx p h s
  | RecvWantTx p h => onWantTx p h s
  | RecvTx p body => onTx p body s
  | RecvNotAvailable p h => onNotAvailable p h s
  | Commit h => (Remove h s).2
  | Forgotten h => Forget h s
  | TimedOut p h => onTimeout p h s
  | Retry p h => onRetry p h s
  end.

(** The inputs are taken one after the other, the first of the list
    first. *)
Definition run (inputs : list Input) (s : State) : State :=
  fold_left (λ s i, step i s) inputs s.

(** *** Reading the event log (§8) *)

(** The number of times [Tx(h, body)] was sent to [p] on its present (or,
    when it is not connected, its last) connection: the log is read from
    the newest event back to the connection of [p]. *)
Fixpoint deliveries (p : Peer) (h : Hash) (evs : list Event) : nat :=
  match evs with
  | [] => 0
  | EvConnected q :: older =>
    if decide (q = p) then 0 else deliveries p h older
  | EvSent q (Tx h' _) :: older =>
    (if decide (q = p ∧ h' = h) then 1 else 0) + deliveries p h older
  | _ :: older => deliveries p h older
  end.

(** The number of invocations of the application validator. *)
Fixpoint validations (evs : list Event) : nat :=
  match evs with
  | [] => 0
  | EvValidated _ :: older => S (validations older)
  | _ :: older => validations older
  end.

(** An input that hands the node a transaction with hash [h]. *)
Definition brings (h : Hash) (i : Input) : Prop :=
  match i with
  | Submit body | RecvTx _ body => digest body = h
  | _ => False
  end.



(** *** Invariants *)

(** A reconciliation state is well formed when a delivered hash is
    recorded in [seenByPeer] and a hash in a terminal state is in neither
    wanted set (the invariant of §3). *)
Definition peer_wf (ps : PeerState) : Prop :=
  ∀ h, (phase_of ps h = Delivered → h ∈ seenByPeer ps)
       ∧ (terminal (phase_of ps h) = true →
          (h ∉ wantedByPeer ps) ∧ (h ∉ wantedFromPeer ps)).




End Protocol.

Arguments Msg Hash : clear implicits.
Arguments TxRecord Peer Hash : clear implicits.
Arguments PeerState Hash {_ _}.
Arguments Event Peer Hash : clear implicits.
Arguments State Peer Hash {_ _ _ _}.
Arguments Input Peer Hash : clear implicits.

End Mempool.

(* --------------------------------------------------------------------- *)
(** ** A node for the examples                                            *)
(* --------------------------------------------------------------------- *)
Module MempoolExample.
Import Mempool.
Local Open Scope string_scope.

(** Peers are named by strings and a transaction is identified by the
    hexadecimal text of its bytes; the application rejects the empty
    transaction; the pool holds two transactions and one request may be
    outstanding per peer. *)
Definition setting : Setting string := {|
  digest := Schema.hex_upper;
  CheckTx := λ body, match body with [] => Invalid "empty" | _ => Valid end;
  capacity := 2;
  want_budget := 1;
|}.

(** The transaction [T] of the end-to-end scenario of §8 and its hash. *)
Definition T : bytes := [Byte.x01; Byte.x02].
Definition h1 : string := "0102".

(** The node after the given inputs. *)
Definition after (inputs : list (Input string string)) : State string string :=
  run (cfg := setting) inputs init.

(** The end-to-end scenario of §8: [T] is submitted locally with the peers
    A (push) and B (pull) connected; B asks for it; a block commit removes
    it; a third peer C asks for it late. *)
Definition scenario : list (Input string string) :=
  [PeerConnect "A" push; PeerConnect "B" pull; Submit T;
   RecvWantTx "B" h1; Commit h1; PeerConnect "C" pull; RecvWantTx "C" h1].

End MempoolExample.

(* ===================================================================== *)
(** * Part II: properties                                                 *)
(* ===================================================================== *)

Section SchemaFacts.
Import Schema.
Context {I : Imports} {Node : Type}.
Implicit Types (w : World Node) (c : Client).

(** The two writers, run: a guard on one table, then one point for it. *)
Lemma WriteMempoolTx_run w peer tx transferType version :
  WriteMempoolTx peer tx transferType version w =
  (tt, {| client := WritePoint (client w) MempoolTxTable (map_literal [
            (TxFieldKey, VString (HexString (TxHash tx)));
            (PeerFieldKey, VID peer);
            (SizeFieldKey, VInt (Z.of_nat (length tx)));
            (TransferTypeFieldKey, VString transferType);
            (VersionFieldKey, VString version) ]);
          node := node w |}).
Proof.
  unfold WriteMempoolTx, bind, client_IsCollecting, client_WritePoint, ret.
  unfold WritePoint. destruct w as [c n]; cbn [client node].
  destruct (IsCollecting c MempoolTxTable) eqn:Hc; cbn [negb client node];
    rewrite ?Hc; reflexivity.
Qed.

Lemma WriteMempoolPeerState_run w peer stateUpdate transferType version :
  WriteMempoolPeerState peer stateUpdate transferType version w =
  (tt, {| client := WritePoint (client w) RoundStateTable (map_literal [
            (PeerFieldKey, VID peer);
            (TransferTypeFieldKey, VString transferType);
            (StateUpdateFieldKey, VString stateUpdate);
            (VersionFieldKey, VString version) ]);
          node := node w |}).
Proof.
  unfold WriteMempoolPeerState, bind, client_IsCollecting,
    client_WritePoint, ret.
  unfold WritePoint. destruct w as [c n]; cbn [client node].
  destruct (IsCollecting c RoundStateTable) eqn:Hc; cbn [negb client node];
    rewrite ?Hc; reflexivity.
Qed.

Lemma WritePoint_written c table fs :
  written (WritePoint c table fs) =
  written c ++
    (if IsCollecting c table
     then [{| measurement := table; fields := fs |}] else []).
Proof.
  unfold WritePoint. destruct (IsCollecting c table); simpl; [done|].
  by rewrite app_nil_r.
Qed.

Lemma WritePoint_collecting c table fs :
  collecting (WritePoint c table fs) = collecting c.
Proof. unfold WritePoint. by destruct (IsCollecting c table). Qed.

Lemma WritePoint_not_collecting c table fs :
  IsCollecting c table = false → WritePoint c table fs = c.
Proof. unfold WritePoint. by intros ->. Qed.

Lemma IsCollecting_singleton t table ps :
  IsCollecting {| collecting := {[t]}; written := ps |} table =
  bool_decide (table = t).
Proof.
  unfold IsCollecting; simpl. apply bool_decide_ext. set_solver.
Qed.
End SchemaFacts.

(** Distinct keys of a map literal are looked up independently. *)
Ltac literal_lookup :=
  unfold Schema.map_literal; simpl;
  repeat (first [ apply lookup_insert_eq
                | rewrite lookup_insert_ne; [| congruence ] ]).

(** C3.  When the client collects the mempool_tx table, [WriteMempoolTx]
    appends exactly one point to the sink, for that table, whose size
    field is the byte length of the transaction, whose tx field is the
    hexadecimal string of the digest of the raw bytes and whose version
    field is the given label (the peer and the transfer type are recorded
    too); when the client does not collect the table the world is left as
    it was.  The keys of the map literal are pairwise distinct, as the Go
    compiler requires of constant keys. *)
Theorem WriteMempoolTx_writes_one_point
    {I : Schema.Imports} {Node : Type} (w : Schema.World Node)
    (peer : Schema.ID) (tx : bytes) (transferType version : string) :
  NoDup [Schema.TxFieldKey; Schema.PeerFieldKey; Schema.SizeFieldKey;
         Schema.TransferTypeFieldKey; Schema.VersionFieldKey] →
  let w' := (Schema.WriteMempoolTx peer tx transferType version w).2 in
  (Schema.IsCollecting (Schema.client w) Schema.MempoolTxTable = true →
     ∃ pt, Schema.sink w' = Schema.sink w ++ [pt]
       ∧ Schema.measurement pt = Schema.MempoolTxTable
       ∧ Schema.fields pt !! Schema.SizeFieldKey
           = Some (Schema.VInt (Z.of_nat (length tx)))
       ∧ Schema.fields pt !! Schema.TxFieldKey
           = Some (Schema.VString (Schema.HexString (Schema.TxHash tx)))
       ∧ Schema.fields pt !! Schema.VersionFieldKey
           = Some (Schema.VString version)
       ∧ Schema.fields pt !! Schema.PeerFieldKey = Some (Schema.VID peer)
       ∧ Schema.fields pt !! Schema.TransferTypeFieldKey
           = Some (Schema.VString transferType))
  ∧ (Schema.IsCollecting (Schema.client w) Schema.MempoolTxTable = false →
     w' = w).
Proof.
  intros Hkeys w'. subst w'. rewrite WriteMempoolTx_run. simpl.
  rewrite !NoDup_cons in Hkeys. repeat rewrite not_elem_of_cons in Hkeys.
  destruct Hkeys as ((Htx1 & Htx2 & Htx3 & Htx4 & _) & (Hp1 & Hp2 & Hp3 & _)
                     & (Hs1 & Hs2 & _) & (Ht1 & _) & _).
  split.
  - intros Hc. eexists. unfold Schema.sink; simpl.
    rewrite WritePoint_written, Hc.
    split; [reflexivity|]. simpl.
    repeat split; literal_lookup.
  - intros Hc. rewrite WritePoint_not_collecting by done. by destruct w.
Qed.

(** A witness of C3: a client collecting the two mempool tables, with the
    example values of the imported keys. *)
Lemma WriteMempoolTx_writes_one_point_witness :
  ∃ pt, Schema.sink
          (Schema.WriteMempoolTx (I := Schema.example_imports) "peer1"%string
             [Byte.x01; Byte.xab] "download"%string
             Schema.CatVersionFieldValue
             {| Schema.client := Schema.mempool_client; Schema.node := tt |}).2
        = [pt]
    ∧ Schema.fields pt !! Schema.SizeFieldKey = Some (Schema.VInt 2)
    ∧ Schema.fields pt !! Schema.TxFieldKey
        = Some (Schema.VString "AB01"%string).
Proof.
  destruct (WriteMempoolTx_writes_one_point (I := Schema.example_imports)
              {| Schema.client := Schema.mempool_client; Schema.node := tt |}
              "peer1"%string [Byte.x01; Byte.xab] "download"%string
              Schema.CatVersionFieldValue) as [Hw _].
  - apply (bool_decide_unpack _). by vm_compute.
  - destruct Hw as (pt & Hs & _ & Hsz & Htx & _); [by vm_compute|].
    exists pt. split; [exact Hs|]. split; [exact Hsz | exact Htx].
Defined.

(** C1 (as the code has it).  [WriteMempoolPeerState] guards on and writes
    to [RoundStateTable], the consensus table, and never consults
    [MempoolPeerStateTable]: whenever the two constants differ, a client
    that collects the mempool peer-state table gets no point at all, and a
    client that collects only the round-state table gets the mempool
    state-update point filed under the round-state table.  The point itself
    carries the peer, transfer-type, update and version entries. *)
Theorem WriteMempoolPeerState_writes_to_RoundStateTable
    {I : Schema.Imports} {Node : Type} (n : Node)
    (peer : Schema.ID) (stateUpdate transferType version : string) :
  Schema.RoundStateTable ≠ Schema.MempoolPeerStateTable →
  let run c :=
    Schema.sink
      (Schema.WriteMempoolPeerState peer stateUpdate transferType version
         {| Schema.client := c; Schema.node := n |}).2 in
  let c1 := {| Schema.collecting := {[Schema.MempoolPeerStateTable]};
               Schema.written := [] |} in
  let c2 := {| Schema.collecting := {[Schema.RoundStateTable]};
               Schema.written := [] |} in
  Schema.IsCollecting c1 Schema.MempoolPeerStateTable = true
  ∧ run c1 = []
  ∧ Schema.IsCollecting c2 Schema.MempoolPeerStateTable = false
  ∧ run c2 =
      [{| Schema.measurement := Schema.RoundStateTable;
          Schema.fields := Schema.map_literal [
            (Schema.PeerFieldKey, Schema.VID peer);
            (Schema.TransferTypeFieldKey, Schema.VString transferType);
            (Schema.StateUpdateFieldKey, Schema.VString stateUpdate);
            (Schema.VersionFieldKey, Schema.VString version) ] |}].
Proof.
  intros Hne run c1 c2. subst run c1 c2. cbv beta.
  rewrite !WriteMempoolPeerState_run. unfold Schema.sink. simpl.
  rewrite !WritePoint_written, !IsCollecting_singleton.
  cbn [Schema.written app].
  repeat split; repeat case_bool_decide; congruence.
Qed.

(** A witness of C1's theorem, with the example name of the round-state
    table. *)
Lemma WriteMempoolPeerState_writes_to_RoundStateTable_witness :
  Schema.sink
    (Schema.WriteMempoolPeerState (I := Schema.example_imports)
       "peer1"%string Schema.SeenTxStateUpdateFieldValue "download"%string
       Schema.CatVersionFieldValue
       {| Schema.client :=
            {| Schema.collecting := {[Schema.MempoolPeerStateTable]};
               Schema.written := [] |};
          Schema.node := tt |}).2 = [].
Proof.
  apply (WriteMempoolPeerState_writes_to_RoundStateTable
           (I := Schema.example_imports) tt "peer1"%string
           Schema.SeenTxStateUpdateFieldValue "download"%string
           Schema.CatVersionFieldValue).
  by vm_compute.
Defined.

(** C4.  The sink never influences control flow.  Run against any two
    clients (one may collect the table, the other not) from the same node
    state, each writer returns the same unit value and leaves the same node
    state, namely the one it started from; the client keeps its set of
    tables, and its sink is the old one followed by one point when the
    guard answers true and by nothing when it answers false. *)
Theorem sink_never_influences_control_flow
    {I : Schema.Imports} {Node : Type} (c1 c2 : Schema.Client) (n : Node)
    (peer : Schema.ID) (tx : bytes)
    (stateUpdate transferType version : string) :
  let effect_of (f : Schema.M Node unit) (table : string) (c : Schema.Client) :=
    let w' := (f {| Schema.client := c; Schema.node := n |}).2 in
    Schema.node w' = n
    ∧ Schema.collecting (Schema.client w') = Schema.collecting c
    ∧ ∃ pt, Schema.sink w' =
            Schema.written c ++
              (if Schema.IsCollecting c table then [pt] else []) in
  let same_flow (f : Schema.M Node unit) (table : string) :=
    (f {| Schema.client := c1; Schema.node := n |}).1
      = (f {| Schema.client := c2; Schema.node := n |}).1
    ∧ Schema.node (f {| Schema.client := c1; Schema.node := n |}).2
      = Schema.node (f {| Schema.client := c2; Schema.node := n |}).2
    ∧ effect_of f table c1 ∧ effect_of f table c2 in
  same_flow (Schema.WriteMempoolTx peer tx transferType version)
            Schema.MempoolTxTable
  ∧ same_flow (Schema.WriteMempoolPeerState peer stateUpdate transferType
                 version)
              Schema.RoundStateTable.
Proof.
  cbv zeta beta.
  rewrite !WriteMempoolTx_run, !WriteMempoolPeerState_run.
  unfold Schema.sink. cbn [fst snd Schema.client Schema.node].
  rewrite !WritePoint_collecting, !WritePoint_written.
  repeat split; try reflexivity; eexists; reflexivity.
Qed.

(** C7.  [MempoolTables] is exactly the two names "mempool_tx" and
    "mempool_peer_state"; these are all the tables the schema declares, and
    the local-mempool table is not among them, although the update values
    "removed_tx" and "added_tx" exist. *)
Theorem MempoolTables_exactly_two :
  Schema.MempoolTables = ["mempool_tx"; "mempool_peer_state"]%string
  ∧ Schema.DeclaredTables = Schema.MempoolTables
  ∧ (Schema.CommentedOutLocalTable ∉ Schema.DeclaredTables)
  ∧ Schema.RemovedTxStateUpdateFieldValue = "removed_tx"%string
  ∧ Schema.AddedTxStateUpdateFieldValue = "added_tx"%string.
Proof.
  repeat split.
  unfold Schema.DeclaredTables, Schema.CommentedOutLocalTable,
    Schema.MempoolTxTable, Schema.MempoolPeerStateTable.
  rewrite !not_elem_of_cons. repeat split; try discriminate.
  apply not_elem_of_nil.
Qed.

(* --------------------------------------------------------------------- *)
(** ** tx.go and its copy                                                 *)
(* --------------------------------------------------------------------- *)
Section CopyFacts.
Import Rpc.
Context {T : Types} {I : Imports}.

Lemma loadRawBlock_loop_agree bs height n i buf :
  Core.loadRawBlock_loop bs height n i buf
  = CoreCopy.loadRawBlock_loop bs height n i buf.
Proof.
  revert i buf. induction n as [|n IH]; intros i buf; simpl; [done|].
  destruct (LoadBlockPart bs height i); [apply IH | done].
Qed.

Lemma loadRawBlock_agree bs height :
  Core.loadRawBlock bs height = CoreCopy.loadRawBlock bs height.
Proof.
  unfold Core.loadRawBlock, CoreCopy.loadRawBlock.
  destruct (LoadBlockMeta bs height); [apply loadRawBlock_loop_agree | done].
Qed.

Lemma proveTx_agree env height index :
  Core.proveTx env height index = CoreCopy.proveTx env height index.
Proof.
  unfold Core.proveTx, CoreCopy.proveTx. by rewrite loadRawBlock_agree.
Qed.

Lemma Tx_agree env ctx hash prove :
  Core.Tx env ctx hash prove = CoreCopy.Tx env ctx hash prove.
Proof.
  unfold Core.Tx, CoreCopy.Tx.
  destruct (is_null_TxIndex (env_TxIndexer env)); [done|].
  destruct (TxIndexer_Get (env_TxIndexer env) hash) as [[r|] [e|]];
    first [ by rewrite proveTx_agree | done ].
Qed.

Lemma less_agree a b :
  Core.less_desc a b = CoreCopy.less_desc a b
  ∧ Core.less_asc a b = CoreCopy.less_asc a b.
Proof. done. Qed.

Lemma TxSearch_loop_agree env prove results n i acc :
  Core.TxSearch_loop env prove results n i acc
  = CoreCopy.TxSearch_loop env prove results n i acc.
Proof.
  revert i acc. induction n as [|n IH]; intros i acc; simpl; [done|].
  change (CoreCopy.index_slice results i) with (Core.index_slice results i).
  destruct (Core.index_slice results i) as [r|]; [|done].
  rewrite proveTx_agree.
  destruct (if prove then _ else _) as [shareProof [e|]]; [done|].
  apply IH.
Qed.

Lemma TxSearch_agree env ctx query prove pagePtr perPagePtr orderBy :
  Core.TxSearch env ctx query prove pagePtr perPagePtr orderBy
  = CoreCopy.TxSearch env ctx query prove pagePtr perPagePtr orderBy.
Proof.
  unfold Core.TxSearch, CoreCopy.TxSearch.
  destruct (is_null_TxIndex (env_TxIndexer env)); [done|].
  destruct (Z.of_nat (String.length query) >? maxQueryLength)%Z; [done|].
  destruct (query_New query) as [q [e|]]; [done|].
  destruct (TxIndexer_Search _ _ q) as [results [e|]]; [done|].
  change CoreCopy.less_desc with Core.less_desc.
  change CoreCopy.less_asc with Core.less_asc.
  destruct (if String.eqb orderBy "desc" then _ else _) as [sorted|]; [|done].
  destruct (validatePage _ _ _) as [page [e|]]; [done|].
  destruct (MinInt _ _ <? 0)%Z; first [ by rewrite TxSearch_loop_agree | done ].
Qed.
End CopyFacts.

(** C8.  [Tx] and [TxSearch] of rpc/core/tx.go and of the second copy of
    the file return the same results and the same errors (and panic alike),
    for every environment, hash, query, pagination and ordering
    argument. *)
Theorem Tx_and_TxSearch_copies_agree
    {T : Rpc.Types} {I : Rpc.Imports} (env : Rpc.Environment)
    (ctx : Rpc.RpcContext) (hash : bytes) (query : string) (prove : bool)
    (pagePtr perPagePtr : option Z) (orderBy : string) :
  Core.Tx env ctx hash prove = CoreCopy.Tx env ctx hash prove
  ∧ Core.TxSearch env ctx query prove pagePtr perPagePtr orderBy
    = CoreCopy.TxSearch env ctx query prove pagePtr perPagePtr orderBy.
Proof. split; [apply Tx_agree | apply TxSearch_agree]. Qed.

(* --------------------------------------------------------------------- *)
(** ** Tx                                                                 *)
(* --------------------------------------------------------------------- *)

(** C9 (as stated) fails: the indexer is not the null indexer, the lookup
    succeeds and returns a record, and yet [Tx] returns an error, because
    the proof was asked for and [proveTx] finds no block at the height of
    the transaction. *)
Lemma Tx_fails_in_a_fourth_case :
  Rpc.is_null_TxIndex (Rpc.env_TxIndexer RpcExample.env) = false
  ∧ Rpc.TxIndexer_Get (Rpc.env_TxIndexer RpcExample.env) [Byte.x01]
    = (Some RpcExample.tx1, None)
  ∧ Core.Tx (I := RpcExample.imports) RpcExample.env () [Byte.x01] true
    = (None, Some (Rpc.fmt_Errorf "no block found for height %d"
                     [Rpc.ArgInt 5])).
Proof. by vm_compute. Qed.

(** C9 (amended).  [Tx] returns a non-nil result only together with a nil
    error, and a nil error only together with a result.  It returns an
    error in exactly four cases: the indexer is the null indexer; the
    lookup fails; the lookup returns no record; or a proof is asked for
    and [proveTx] fails for the record found.  On success the [Hash] of
    the result is the queried hash and, when [prove] is false, its [Proof]
    is the zero [ShareProof]. *)
Theorem Tx_results_and_errors
    {T : Rpc.Types} {I : Rpc.Imports} (env : Rpc.Environment)
    (ctx : Rpc.RpcContext) (hash : bytes) (prove : bool) :
  let res := (Core.Tx env ctx hash prove).1 in
  let err := (Core.Tx env ctx hash prove).2 in
  let ix := Rpc.env_TxIndexer env in
  (res ≠ None → err = None)
  ∧ (err = None → res ≠ None)
  ∧ (err ≠ None ↔
       Rpc.is_null_TxIndex ix = true
       ∨ (Rpc.is_null_TxIndex ix = false
          ∧ (Rpc.TxIndexer_Get ix hash).2 ≠ None)
       ∨ (Rpc.is_null_TxIndex ix = false
          ∧ Rpc.TxIndexer_Get ix hash = (None, None))
       ∨ (Rpc.is_null_TxIndex ix = false ∧ prove = true
          ∧ ∃ r, Rpc.TxIndexer_Get ix hash = (Some r, None)
              ∧ (Core.proveTx env (Rpc.TxResult_Height r)
                   (Rpc.TxResult_Index r)).2 ≠ None))
  ∧ (∀ r, res = Some r →
       Rpc.ResultTx_Hash r = hash
       ∧ (prove = false → Rpc.ResultTx_Proof r = Rpc.ShareProof_zero)).
Proof.
  cbv zeta. unfold Core.Tx.
  destruct (Rpc.is_null_TxIndex (Rpc.env_TxIndexer env)) eqn:Hnull.
  { simpl. split_and!; [done | done | split; [by left | done] | done]. }
  destruct (Rpc.TxIndexer_Get (Rpc.env_TxIndexer env) hash)
    as [[r|] [e|]] eqn:Hget; simpl.
  - split_and!; try done. split; [intros _|done]. right; left. done.
  - destruct prove.
    + destruct (Core.proveTx env _ _) as [sp [e|]] eqn:Hp; simpl.
      * split_and!; try done. split; [intros _|done]. do 3 right.
        split_and!; try done. exists r. by rewrite Hp.
      * split_and!; try done.
        -- split; [done|].
           intros [?|[[_ ?]|[[_ ?]|(_ & _ & r' & Hr' & Hp')]]]; try done.
           injection Hr' as <-. by rewrite Hp in Hp'.
        -- by intros r' [= <-].
    + simpl. split_and!; try done.
      * split; [done|].
        intros [?|[[_ ?]|[[_ ?]|(_ & ? & _)]]]; done.
      * by intros r' [= <-].
  - split_and!; try done. split; [intros _|done]. right; left. done.
  - split_and!; try done. split; [intros _|done]. right; right; left. done.
Qed.

(* --------------------------------------------------------------------- *)
(** ** TxSearch                                                           *)
(* --------------------------------------------------------------------- *)
Section SearchFacts.
Import Rpc.
Context {T : Types} {I : Imports}.
Local Open Scope Z_scope.

(** A sum that does not fall below the least [int] does not grow by
    wrapping. *)
Lemma wrap_int_le z : - 2 ^ 63 ≤ z → wrap_int z ≤ z.
Proof.
  intros Hz. unfold wrap_int.
  assert ((z + 2 ^ 63) mod 2 ^ 64 ≤ z + 2 ^ 63); [|lia].
  apply Z.mod_le; lia.
Qed.

Lemma index_slice_Some {A} (l : list A) i x :
  Core.index_slice l i = Some x → 0 ≤ i < Z.of_nat (length l).
Proof.
  unfold Core.index_slice. destruct (Z.ltb_spec i 0); [done|].
  intros Hl%lookup_lt_Some. lia.
Qed.

(** A loop that returns a page has run all its iterations, each on an
    index inside the slice. *)
Lemma TxSearch_loop_page env prove results n i acc page :
  Core.TxSearch_loop env prove results n i acc = Returns (inl page) →
  length page = (length acc + n)%nat
  ∧ (n ≠ 0%nat → 0 ≤ i ∧ i + Z.of_nat n ≤ Z.of_nat (length results)).
Proof.
  revert i acc. induction n as [|n IH]; intros i acc; simpl.
  - intros [= <-]. split; [lia | done].
  - destruct (Core.index_slice results i) as [r|] eqn:Hr; [|done].
    apply index_slice_Some in Hr.
    destruct (if prove then _ else _) as [shareProof [e|]]; [done|].
    intros [Hlen Hrange]%IH. rewrite length_app in Hlen. simpl in Hlen.
    split; [lia|]. intros _. destruct n; [lia|].
    destruct Hrange; [done|]. lia.
Qed.
End SearchFacts.

(** C10.  Whenever [TxSearch] returns a result, it comes with a nil error,
    the indexer has returned the matching records, [TotalCount] is their
    number (the total before pagination) and [Txs] holds at most the
    validated per-page number of transactions; and an [orderBy] other than
    "asc", "desc" and the empty string yields an error and no result.
    Of the imported functions it is used that [sort.Slice] keeps the length
    of the slice and that [MinInt] does not exceed its first argument. *)
Theorem TxSearch_page_and_total
    {T : Rpc.Types} {I : Rpc.Imports} (env : Rpc.Environment)
    (ctx : Rpc.RpcContext) (query : string) (prove : bool)
    (pagePtr perPagePtr : option Z) (orderBy : string) :
  (∀ l less, length (Rpc.sort_Slice l less) = length l) →
  (∀ a b, (Rpc.MinInt a b ≤ a)%Z) →
  (∀ res err,
     Core.TxSearch env ctx query prove pagePtr perPagePtr orderBy
       = Rpc.Returns (Some res, err) →
     err = None
     ∧ (Z.of_nat (length (Rpc.ResultTxSearch_Txs res))
          ≤ Rpc.validatePerPage perPagePtr)%Z
     ∧ ∃ q results,
         Rpc.query_New query = (q, None)
         ∧ Rpc.TxIndexer_Search (Rpc.env_TxIndexer env) (Rpc.ctx_Context ctx) q
             = (results, None)
         ∧ Rpc.ResultTxSearch_TotalCount res = Z.of_nat (length results))
  ∧ (orderBy ∉ ["asc"; "desc"; ""]%string →
     ∃ e, Core.TxSearch env ctx query prove pagePtr perPagePtr orderBy
          = Rpc.Returns (None, Some e)).
Proof.
  intros Hsort Hmin. unfold Core.TxSearch. split.
  - intros res err.
    destruct (Rpc.is_null_TxIndex _); [done|].
    destruct (_ >? _)%Z; [done|].
    destruct (Rpc.query_New query) as [q [e|]] eqn:Hq; [done|].
    destruct (Rpc.TxIndexer_Search _ _ q) as [results [e|]] eqn:Hs; [done|].
    destruct (if String.eqb orderBy "desc" then _ else _)
      as [sorted|] eqn:Hsorted; [|done].
    assert (length sorted = length results) as Hlen.
    { destruct (String.eqb orderBy "desc").
      - injection Hsorted as <-. apply Hsort.
      - destruct (_ || _); [|done]. injection Hsorted as <-. apply Hsort. }
    cbv zeta.
    destruct (Rpc.validatePage _ _ _) as [page [e|]]; [done|].
    set (skipCount := Rpc.validateSkipCount page _).
    set (pageSize := Rpc.MinInt _ _).
    destruct (Z.ltb_spec pageSize 0) as [|Hpage]; [done|].
    destruct (Core.TxSearch_loop _ _ _ _ _ _) as [[txs|e]|] eqn:Hloop;
      [|done|done].
    intros [= <- <-]. simpl. split; [done|]. split.
    + apply TxSearch_loop_page in Hloop as [Hn Hrange]. simpl in Hn.
      rewrite Hn.
      assert (pageSize ≤ Rpc.validatePerPage perPagePtr)%Z by apply Hmin.
      destruct (Z.to_nat _) as [|n] eqn:Hcount; [lia|].
      destruct Hrange as [Hskip _]; [done|].
      pose proof (wrap_int_le (skipCount + pageSize)). lia.
    + exists q, results. by rewrite Hlen.
  - intros Horder. rewrite !not_elem_of_cons in Horder.
    destruct Horder as (Hasc & Hdesc & Hempty & _).
    destruct (Rpc.is_null_TxIndex _); [by eexists|].
    destruct (_ >? _)%Z; [by eexists|].
    destruct (Rpc.query_New query) as [q [e|]]; [by eexists|].
    destruct (Rpc.TxIndexer_Search _ _ q) as [results [e|]]; [by eexists|].
    apply String.eqb_neq in Hasc, Hdesc, Hempty.
    rewrite Hasc, Hdesc, Hempty. simpl. by eexists.
Qed.

(** A witness of C10: three matching transactions, two per page, newest
    first. *)
Lemma TxSearch_page_and_total_witness :
  match Core.TxSearch (I := RpcExample.imports) RpcExample.env ()
          "tx.height > 1" false (Some 1%Z) (Some 2%Z) "desc" with
  | Rpc.Returns (Some res, _) =>
    (Z.of_nat (length (Rpc.ResultTxSearch_Txs res)) ≤ 2)%Z
    ∧ Rpc.ResultTxSearch_TotalCount res = 3%Z
  | _ => False
  end.
Proof.
  destruct (TxSearch_page_and_total (I := RpcExample.imports) RpcExample.env
              () "tx.height > 1" false (Some 1%Z) (Some 2%Z) "desc")
    as [Hres _].
  - intros l less. unfold Rpc.sort_Slice; simpl.
    unfold RpcExample.insertion_sort.
    induction l as [|x l IH]; simpl; [done|]. rewrite <- IH.
    generalize (foldr (RpcExample.insert_by less) [] l). intros l'.
    induction l' as [|y l' IH']; simpl; [done|].
    destruct (less x y); simpl; [done|]. by rewrite IH'.
  - intros a b. simpl. lia.
  - destruct (Core.TxSearch _ _ _ _ _ _ _) as [[[res|] err]|] eqn:E;
      [| by vm_compute in E ..].
    destruct (Hres _ _ eq_refl) as (_ & Hpage & q & results & _ & Hs & Ht).
    split; [exact Hpage|]. rewrite Ht. by injection Hs as <-.
Defined.

(* --------------------------------------------------------------------- *)
(** ** The dissemination protocol                                         *)
(* --------------------------------------------------------------------- *)
Section PeerFacts.
Import Mempool.
Context {Peer Hash : Type} `{Countable Peer} `{Countable Hash}.
Implicit Types (ps : PeerState Hash) (h : Hash).

Lemma phase_of_insert ps h ph h' s1 s2 s3 v :
  phase_of {| seenByPeer := s1; wantedByPeer := s2; wantedFromPeer := s3;
              protocolVersion := v; phase := <[h := ph]> (phase ps) |} h'
  = if decide (h = h') then ph else phase_of ps h'.
Proof.
  unfold phase_of; simpl. rewrite lookup_insert.
  by destruct (decide (h = h')).
Qed.

Lemma phase_of_same ps h' s1 s2 s3 v :
  phase_of {| seenByPeer := s1; wantedByPeer := s2; wantedFromPeer := s3;
              protocolVersion := v; phase := phase ps |} h'
  = phase_of ps h'.
Proof. done. Qed.

Lemma peer_wf_fresh v : peer_wf (fresh (Hash := Hash) v).
Proof. intros h. unfold phase_of; simpl. rewrite lookup_empty. done. Qed.

Lemma peer_wf_to_Delivered h ps : peer_wf ps → peer_wf (to_Delivered h ps).
Proof.
  intros Hwf h'. destruct (Hwf h') as [Hs Hw].
  unfold to_Delivered. rewrite phase_of_insert. simpl.
  destruct (decide (h = h')) as [->|Hne]; set_solver.
Qed.

Lemma peer_wf_to_Removed h ps : peer_wf ps → peer_wf (to_Removed h ps).
Proof.
  intros Hwf h'. destruct (Hwf h') as [Hs Hw].
  unfold to_Removed. destruct (terminal (phase_of ps h)); [done|].
  rewrite phase_of_insert. simpl.
  destruct (decide (h = h')) as [->|Hne]; set_solver.
Qed.

Lemma peer_wf_set_nonterminal h ph ps s1 s2 s3 :
  terminal ph = false →
  (∀ h', h' ≠ h → (h' ∈ seenByPeer ps → h' ∈ s1)
                  ∧ (h' ∈ s2 → h' ∈ wantedByPeer ps)
                  ∧ (h' ∈ s3 → h' ∈ wantedFromPeer ps)) →
  peer_wf ps →
  peer_wf {| seenByPeer := s1; wantedByPeer := s2; wantedFromPeer := s3;
             protocolVersion := protocolVersion ps;
             phase := <[h := ph]> (phase ps) |}.
Proof.
  intros Hph Hsets Hwf h'. destruct (Hwf h') as [Hs Hw].
  rewrite phase_of_insert. simpl.
  destruct (decide (h = h')) as [->|Hne].
  - split; [by destruct ph | by rewrite Hph].
  - destruct (Hsets h') as (? & ? & ?); [done|]. set_solver.
Qed.

Lemma peer_wf_to_Announced h ps : peer_wf ps → peer_wf (to_Announced h ps).
Proof.
  intros Hwf. unfold to_Announced.
  destruct (phase_of ps h); try done;
    by apply peer_wf_set_nonterminal.
Qed.

Lemma peer_wf_heard h ps : peer_wf ps → peer_wf (heard h ps).
Proof.
  intros Hwf. apply peer_wf_to_Announced.
  intros h'. destruct (Hwf h') as [Hs Hw].
  rewrite phase_of_same. simpl. set_solver.
Qed.

Lemma peer_wf_requested_from h ps : peer_wf ps → peer_wf (requested_from h ps).
Proof. intros Hwf. apply peer_wf_set_nonterminal; [done| set_solver |done]. Qed.

Lemma peer_wf_requested_by h ps : peer_wf ps → peer_wf (requested_by h ps).
Proof. intros Hwf. apply peer_wf_set_nonterminal; [done| set_solver |done]. Qed.

Lemma peer_wf_reverted h ps : peer_wf ps → peer_wf (reverted h ps).
Proof. intros Hwf. apply peer_wf_set_nonterminal; [done| set_solver |done]. Qed.













(** After the transition to [Removed] the hash is in neither wanted
    set. *)
Lemma to_Removed_not_wanted h ps :
  peer_wf ps →
  (h ∉ wantedByPeer (to_Removed h ps)) ∧ (h ∉ wantedFromPeer (to_Removed h ps)).
Proof.
  intros Hwf. unfold to_Removed.
  destruct (terminal (phase_of ps h)) eqn:Ht.
  - by apply Hwf.
  - simpl. set_solver.
Qed.
End PeerFacts.

Section LogFacts.
Import Mempool.
Context {Peer Hash : Type} `{Countable Peer} `{Countable Hash}.
Context {cfg : Setting Hash}.
Implicit Types (ps : PeerState Hash) (h : Hash) (p q : Peer).
Implicit Types (pm : gmap Peer (PeerState Hash)).
Implicit Types (evs old : list (Event Peer Hash)).




Lemma validations_app evs evs' :
  validations (evs ++ evs') = validations evs + validations evs'.
Proof.
  induction evs as [|e evs IH]; simpl; [done|].
  destruct e; simpl; lia.
Qed.

Lemma validations_fan_out h0 body origin (l : list (Peer * PeerState Hash)) :
  validations
    (flat_map (λ '(q, qs), EvSent q <$> (fan_out_peer h0 body origin q qs).2) l)
  = 0.
Proof.
  induction l as [|[q qs] l IH]; simpl; [done|].
  rewrite validations_app, IH.
  generalize (fan_out_peer h0 body origin q qs).2. intros ms.
  rewrite Nat.add_0_r. induction ms as [|m ms IHms]; [done | exact IHms].
Qed.
End LogFacts.

Section InvariantFacts.
Import Mempool.
Context {Peer Hash : Type} `{Countable Peer} `{Countable Hash}.
Context {cfg : Setting Hash}.
Implicit Types (ps : PeerState Hash) (h : Hash) (p q : Peer).
Implicit Types (pm : gmap Peer (PeerState Hash)).
Implicit Types (evs old : list (Event Peer Hash)) (s : State Peer Hash).









Lemma fan_out_peer_wf h0 body origin p ps :
  peer_wf ps → peer_wf (fan_out_peer h0 body origin p ps).1.
Proof.
  intros Hwf. unfold fan_out_peer.
  destruct (decide (origin = Some p)); [done|].
  destruct (decide (h0 ∈ seenByPeer ps)); [done|].
  destruct (protocolVersion ps); simpl.
  - by apply peer_wf_to_Delivered.
  - by apply peer_wf_to_Announced.
Qed.


End InvariantFacts.

Section StepFacts.
Import Mempool.
Context {Peer Hash : Type} `{Countable Peer} `{Countable Hash}.
Context {cfg : Setting Hash}.
Implicit Types (ps : PeerState Hash) (h : Hash) (p q : Peer).
Implicit Types (s : State Peer Hash) (i : Input Peer Hash).

Lemma Validate_effect h body s :
  pool (Validate h body s).2 = pool s
  ∧ peers (Validate h body s).2 = peers s
  ∧ clock (Validate h body s).2 = clock s
  ∧ ((cache s !! h = Some (Validate h body s).1
      ∧ (Validate h body s).2 = s)
     ∨ (cache s !! h = None
        ∧ (Validate h body s).1 = CheckTx body
        ∧ cache (Validate h body s).2 = <[h := CheckTx body]> (cache s)
        ∧ log (Validate h body s).2 = EvValidated h :: log s)).
Proof.
  unfold Validate. destruct (cache s !! h) as [v|]; simpl.
  - split_and!; try done. by left.
  - split_and!; try done. by right.
Qed.











(** The reconciliation states stay well formed, whatever the inputs. *)
Lemma wf_Admit body origin s :
  map_Forall (λ _ ps, peer_wf ps) (peers s) →
  map_Forall (λ _ ps, peer_wf ps) (peers (Admit body origin s).2).
Proof.
  intros Hwf. unfold Admit.
  destruct (Validate_effect (digest body) body s) as (_ & Hp & _).
  destruct (Validate (digest body) body s) as [[|reason] s1]; simpl in *;
    [|by rewrite Hp].
  destruct (Contains s1 (digest body)); simpl; [by rewrite Hp|].
  destruct (decide (capacity ≤ length (pool s1))); simpl; [by rewrite Hp|].
  rewrite Hp. intros p ps'. rewrite map_lookup_imap.
  destruct (peers s !! p) as [ps|] eqn:Hps; simpl; [|done].
  intros [= <-]. apply fan_out_peer_wf. by eapply Hwf.
Qed.

Lemma wf_try_request p h ps s :
  map_Forall (λ _ ps, peer_wf ps) (peers s) → peer_wf ps →
  map_Forall (λ _ ps, peer_wf ps) (peers (try_request p h ps s)).
Proof.
  intros Hwf Hps. unfold try_request.
  destruct (decide (h ∈ wantedFromPeer ps)); simpl.
  { by apply map_Forall_insert_2. }
  destruct (decide (_ < want_budget)); simpl.
  - apply map_Forall_insert_2; [by apply peer_wf_requested_from | done].
  - by apply map_Forall_insert_2.
Qed.

Lemma wf_step i s :
  map_Forall (λ _ ps, peer_wf ps) (peers s) →
  map_Forall (λ _ ps, peer_wf ps) (peers (step i s)).
Proof.
  intros Hwf.
  destruct i as [body|p v|p|p h|p h|p body|p h|h|h|p h|p h]; simpl.
  - by apply wf_Admit.
  - unfold onConnect. destruct (peers s !! p) eqn:Hp; simpl; [done|].
    apply map_Forall_insert_2; [apply peer_wf_fresh | done].
  - unfold onDisconnect. destruct (peers s !! p) eqn:Hp; simpl; [|done].
    by apply map_Forall_delete.
  - unfold onSeenTx. destruct (peers s !! p) as [ps|] eqn:Hp; [|done].
    pose proof (Hwf p ps Hp) as Hps.
    destruct (decide (phase_of ps h = Delivered)); [done|].
    destruct (Contains s h); simpl.
    + apply map_Forall_insert_2; [by apply peer_wf_heard | done].
    + apply wf_try_request; [done | by apply peer_wf_heard].
  - unfold onWantTx. destruct (peers s !! p) as [ps|] eqn:Hp; [|done].
    pose proof (Hwf p ps Hp) as Hps.
    destruct (lookup_tx h (pool s)) as [r|]; simpl.
    + apply map_Forall_insert_2; [|done].
      by apply peer_wf_to_Delivered, peer_wf_requested_by.
    + apply map_Forall_insert_2; [by apply peer_wf_to_Removed | done].
  - unfold onTx. destruct (peers s !! p) as [ps|] eqn:Hp; [|done].
    pose proof (Hwf p ps Hp) as Hps.
    destruct (decide (phase_of ps (digest body) = Delivered)); [done|].
    apply wf_Admit. simpl.
    apply map_Forall_insert_2; [by apply peer_wf_to_Delivered | done].
  - unfold onNotAvailable. destruct (peers s !! p) as [ps|] eqn:Hp; [|done].
    pose proof (Hwf p ps Hp) as Hps.
    destruct (decide (h ∈ wantedFromPeer ps)); [|done]. simpl.
    apply map_Forall_insert_2; [by apply peer_wf_to_Removed | done].
  - intros p ps'. rewrite lookup_fmap.
    destruct (peers s !! p) as [ps|] eqn:Hp; simpl; [|done].
    intros [= <-]. apply peer_wf_to_Removed. by eapply Hwf.
  - unfold Forget. by destruct (_ || _).
  - unfold onTimeout. destruct (peers s !! p) as [ps|] eqn:Hp; [|done].
    pose proof (Hwf p ps Hp) as Hps.
    destruct (decide (_ ∧ _)); [|done]. simpl.
    apply map_Forall_insert_2; [by apply peer_wf_reverted | done].
  - unfold onRetry. destruct (peers s !! p) as [ps|] eqn:Hp; [|done].
    pose proof (Hwf p ps Hp) as Hps.
    destruct (decide (_ ∧ _)); [|done].
    destruct (Contains s h); [done|]. by apply wf_try_request.
Qed.

Lemma wf_reachable inputs :
  map_Forall (λ _ ps, peer_wf ps)
    (peers (run inputs (init (Peer := Peer)))).
Proof.
  assert (∀ s, map_Forall (λ _ ps, peer_wf ps) (peers s) →
               map_Forall (λ _ ps, peer_wf ps) (peers (run inputs s))) as Hrun.
  { induction inputs as [|i inputs IH]; intros s Hwf; simpl; [done|].
    by apply IH, wf_step. }
  apply Hrun. apply map_Forall_empty.
Qed.
End StepFacts.




Section StoreFacts.
Import Mempool.
Context {Peer Hash : Type} `{Countable Peer} `{Countable Hash}.
Context {cfg : Setting Hash}.
Implicit Types (ps : PeerState Hash) (h : Hash) (p q : Peer).
Implicit Types (s : State Peer Hash) (i : Input Peer Hash).
Implicit Types (txs : list (TxRecord Peer Hash)).

Lemma lookup_tx_None h txs :
  lookup_tx h txs = None ↔ h ∉ hash <$> txs.
Proof.
  unfold lookup_tx. induction txs as [|r txs IH]; simpl.
  - split; [intros _; apply not_elem_of_nil | done].
  - rewrite not_elem_of_cons. destruct (decide (hash r = h)) as [Heq|Hne].
    + rewrite bool_decide_eq_true_2 by done. split; [done|]. by intros [? _].
    + rewrite bool_decide_eq_false_2 by done. rewrite IH. naive_solver.
Qed.

Lemma lookup_tx_Some h txs r :
  lookup_tx h txs = Some r → hash r = h ∧ r ∈ txs.
Proof.
  unfold lookup_tx. intros Hf. apply List.find_some in Hf as [Hin Hh].
  apply bool_decide_eq_true in Hh. split; [done | by apply list_elem_of_In].
Qed.

Lemma Contains_false s h : Contains s h = false ↔ lookup_tx h (pool s) = None.
Proof. unfold Contains. by destruct (lookup_tx h (pool s)). Qed.

Lemma lookup_tx_Remove h s : lookup_tx h (pool (Remove h s).2) = None.
Proof.
  simpl. apply lookup_tx_None. rewrite list_elem_of_fmap.
  intros (r & -> & Hr). rewrite list_elem_of_filter in Hr. by destruct Hr.
Qed.

Lemma pool_try_request p h ps s : pool (try_request p h ps s) = pool s.
Proof. unfold try_request. by repeat case_decide. Qed.

Lemma lookup_tx_Admit h body origin s :
  digest body ≠ h → lookup_tx h (pool s) = None →
  lookup_tx h (pool (Admit body origin s).2) = None.
Proof.
  intros Hne Hnone. unfold Admit.
  destruct (Validate_effect (digest body) body s) as (Hpool & _).
  destruct (Validate (digest body) body s) as [[|reason] s1]; simpl in *;
    [|by rewrite Hpool].
  destruct (Contains s1 (digest body)); simpl; [by rewrite Hpool|].
  destruct (decide (capacity ≤ length (pool s1))); simpl; [by rewrite Hpool|].
  rewrite Hpool. apply lookup_tx_None. apply lookup_tx_None in Hnone.
  rewrite fmap_app, elem_of_app. simpl. rewrite list_elem_of_singleton.
  naive_solver.
Qed.

(** A hash out of the store stays out until an input brings a transaction
    with that hash. *)
Lemma lookup_tx_step h i s :
  ¬ brings h i → lookup_tx h (pool s) = None →
  lookup_tx h (pool (step i s)) = None.
Proof.
  intros Hb Hnone.
  destruct i as [body|p v|p|p h'|p h'|p body|p h'|h'|h'|p h'|p h']; simpl.
  - by apply lookup_tx_Admit.
  - unfold onConnect. by destruct (peers s !! p).
  - unfold onDisconnect. by destruct (peers s !! p).
  - unfold onSeenTx. destruct (peers s !! p); [|done].
    case_decide; [done|]. destruct (Contains s h'); [done|].
    by rewrite pool_try_request.
  - unfold onWantTx. destruct (peers s !! p); [|done].
    by destruct (lookup_tx h' (pool s)).
  - unfold onTx. destruct (peers s !! p); [|done].
    case_decide; [done|]. by apply lookup_tx_Admit.
  - unfold onNotAvailable. destruct (peers s !! p); [|done]. by case_decide.
  - apply lookup_tx_None. apply lookup_tx_None in Hnone.
    rewrite list_elem_of_fmap. intros (r & -> & Hr).
    rewrite list_elem_of_filter in Hr. destruct Hr as [_ Hr]. apply Hnone.
    by apply list_elem_of_fmap_2.
  - unfold Forget. by destruct (_ || _).
  - unfold onTimeout. destruct (peers s !! p); [|done]. by case_decide.
  - unfold onRetry. destruct (peers s !! p); [|done].
    case_decide; [|done]. destruct (Contains s h'); [done|].
    by rewrite pool_try_request.
Qed.

(** The first admission of an acceptable transaction that is new to the
    store and to the cache. *)
Lemma Admit_new body origin s :
  CheckTx body = Valid →
  cache s !! digest body = None →
  Contains s (digest body) = false →
  length (pool s) < capacity →
  Admit body origin s =
  (Added,
   fan_out (digest body) body origin
     {| pool := pool s ++ [{| hash := digest body; raw := body;
                              size := length body; admittedAt := clock s;
                              senderPeer := origin |}];
        cache := <[digest body := Valid]> (cache s);
        peers := peers s;
        clock := S (clock s);
        log := EvAdmit (digest body) Added
                 :: EvValidated (digest body) :: log s |}).
Proof.
  intros Hvalid Hcache Hpool Hcap. unfold Admit, Validate.
  rewrite Hcache, Hvalid. unfold Contains in *. simpl.
  destruct (lookup_tx (digest body) (pool s)); [done|].
  by rewrite decide_False by lia.
Qed.

(** The admission of a transaction that is in the store, with its
    verdict memoized. *)
Lemma Admit_present body origin s :
  cache s !! digest body = Some Valid →
  Contains s (digest body) = true →
  Admit body origin s =
  (AlreadyPresent, record [EvAdmit (digest body) AlreadyPresent] s).
Proof.
  intros Hcache Hpool. unfold Admit, Validate. rewrite Hcache.
  by rewrite Hpool.
Qed.

Lemma lookup_tx_run h inputs s :
  Forall (λ i, ¬ brings h i) inputs → lookup_tx h (pool s) = None →
  lookup_tx h (pool (run inputs s)) = None.
Proof.
  revert s. induction inputs as [|i inputs IH]; intros s Hb Hnone; [done|].
  apply Forall_cons in Hb as [Hi Hb]. simpl.
  by apply IH, lookup_tx_step.
Qed.
End StoreFacts.

(** The model reproduces the expected trace of the end-to-end scenario of
    §8, oldest event first. *)
Example scenario_trace :
  rev (Mempool.log (MempoolExample.after MempoolExample.scenario)) =
  [Mempool.EvConnected "A"; Mempool.EvConnected "B";
   Mempool.EvValidated MempoolExample.h1;
   Mempool.EvAdmit MempoolExample.h1 Mempool.Added;
   Mempool.EvSent "B" (Mempool.SeenTx MempoolExample.h1);
   Mempool.EvSent "A" (Mempool.Tx MempoolExample.h1 MempoolExample.T);
   Mempool.EvSent "B" (Mempool.Tx MempoolExample.h1 MempoolExample.T);
   Mempool.EvRemove MempoolExample.h1 true;
   Mempool.EvConnected "C";
   Mempool.EvSent "C" (Mempool.NotAvailable MempoolExample.h1)]%string.
Proof. by vm_compute. Qed.

(** In the scenario each of A and B was sent the body once, C never. *)
Example scenario_deliveries :
  let evs := Mempool.log (MempoolExample.after MempoolExample.scenario) in
  Mempool.deliveries "A"%string MempoolExample.h1 evs = 1
  ∧ Mempool.deliveries "B"%string MempoolExample.h1 evs = 1
  ∧ Mempool.deliveries "C"%string MempoolExample.h1 evs = 0.
Proof. by vm_compute. Qed.

(** C5 (as stated) fails for "every subsequent WantTx": once the removed
    transaction is submitted and admitted again, a connected peer that
    asks for it is sent the body, not the not-available signal. *)
Lemma WantTx_after_readmission_gets_the_body :
  let s :=
    MempoolExample.after
      [Mempool.PeerConnect "B"%string Mempool.pull;
       Mempool.Submit MempoolExample.T;
       Mempool.Commit MempoolExample.h1;
       Mempool.Submit MempoolExample.T] in
  Mempool.log
    (Mempool.onWantTx "B"%string MempoolExample.h1 s)
  = Mempool.EvSent "B"%string
      (Mempool.Tx MempoolExample.h1 MempoolExample.T) :: Mempool.log s.
Proof. by vm_compute. Qed.

(** C5 (amended).  In every state the machine reaches, after [Remove(h)]
    no reconciliation state of a connected peer holds [h] in
    [wantedByPeer] or in [wantedFromPeer]; and as long as no input brings
    a transaction with hash [h] to the node again, a [WantTx(h)] from any
    connected peer is answered with [NotAvailable(h)] and nothing else. *)
Theorem removal_clears_state
    {Peer Hash : Type} `{Countable Peer} `{Countable Hash}
    {cfg : Mempool.Setting Hash}
    (inputs : list (Mempool.Input Peer Hash)) (h : Hash) :
  let s' := (Mempool.Remove h (Mempool.run inputs Mempool.init)).2 in
  (∀ p ps, Mempool.peers s' !! p = Some ps →
     (h ∉ Mempool.wantedByPeer ps) ∧ (h ∉ Mempool.wantedFromPeer ps))
  ∧ (∀ later p,
       Forall (λ i, ¬ Mempool.brings h i) later →
       is_Some (Mempool.peers (Mempool.run later s') !! p) →
       Mempool.log (Mempool.onWantTx p h (Mempool.run later s'))
       = Mempool.EvSent p (Mempool.NotAvailable h)
           :: Mempool.log (Mempool.run later s')).
Proof.
  intros s'. split.
  - intros p ps. subst s'. simpl. rewrite lookup_fmap.
    destruct (Mempool.peers _ !! p) as [ps0|] eqn:Hp; simpl; [|done].
    intros [= <-]. apply to_Removed_not_wanted.
    pose proof (wf_reachable (Peer := Peer) inputs) as Hwf.
    by eapply Hwf.
  - intros later p Hlater [ps Hp].
    assert (Mempool.lookup_tx h (Mempool.pool (Mempool.run later s')) = None)
      as Hnone.
    { apply lookup_tx_run; [done|]. apply lookup_tx_Remove. }
    unfold Mempool.onWantTx. by rewrite Hp, Hnone.
Qed.

(** C6 (as stated) fails for a transaction the application rejects: the
    first admission returns [Rejected], not [Added]. *)
Lemma rejected_transaction_is_not_added :
  (Mempool.Admit (cfg := MempoolExample.setting) (Peer := string)
     [] None Mempool.init).1
  = Mempool.Rejected (Mempool.ValidationRejected "empty").
Proof. by vm_compute. Qed.

(** C6 (amended).  Idempotent admission.  For raw bytes that the
    application accepts and whose hash is neither in the store nor
    memoized in the Validity Cache, with the pool below capacity,
    admitting the bytes and then admitting them again returns [Added] and
    then [AlreadyPresent]; the second call leaves the store as it is, and
    the application validator is invoked exactly once across both
    calls. *)
Theorem idempotent_admission
    {Peer Hash : Type} `{Countable Peer} `{Countable Hash}
    {cfg : Mempool.Setting Hash}
    (s : Mempool.State Peer Hash) (body : bytes) (o1 o2 : option Peer) :
  Mempool.CheckTx body = Mempool.Valid →
  Mempool.cache s !! Mempool.digest body = None →
  Mempool.Contains s (Mempool.digest body) = false →
  length (Mempool.pool s) < Mempool.capacity →
  let r1 := Mempool.Admit body o1 s in
  let r2 := Mempool.Admit body o2 r1.2 in
  r1.1 = Mempool.Added
  ∧ r2.1 = Mempool.AlreadyPresent
  ∧ Mempool.pool r2.2 = Mempool.pool r1.2
  ∧ Mempool.validations (Mempool.log r2.2)
    = Mempool.validations (Mempool.log s) + 1.
Proof.
  intros Hvalid Hcache Hpool Hcap r1 r2. subst r2 r1.
  rewrite (Admit_new body o1 s) by done. cbn [fst snd].
  rewrite Admit_present; cbn [fst snd].
  - split_and!; try done. simpl.
    rewrite validations_app, validations_fan_out. simpl. lia.
  - apply lookup_insert_eq.
  - unfold Mempool.Contains.
    destruct (Mempool.lookup_tx _ _) eqn:Hl; [done|].
    apply lookup_tx_None in Hl. exfalso. apply Hl. simpl.
    rewrite fmap_app, elem_of_app. right. simpl. apply list_elem_of_here.
Qed.

(** A witness of C6: the transaction of the scenario, admitted twice by a
    node that has just started. *)
Lemma idempotent_admission_witness :
  (Mempool.Admit (cfg := MempoolExample.setting) (Peer := string)
     MempoolExample.T None Mempool.init).1 = Mempool.Added
  ∧ (Mempool.Admit (cfg := MempoolExample.setting) MempoolExample.T None
       (Mempool.Admit (cfg := MempoolExample.setting) (Peer := string)
          MempoolExample.T None Mempool.init).2).1 = Mempool.AlreadyPresent.
Proof.
  destruct (idempotent_admission (cfg := MempoolExample.setting)
              (Peer := string) Mempool.init MempoolExample.T None None)
    as (H1 & H2 & _); try done.
  simpl. lia.
Defined.

(* ===================================================================== *)
(** * Part III: further properties of rpc/core/tx.go                      *)
(* ===================================================================== *)

Section BlockFacts.
Import Rpc.
Local Open Scope Z_scope.
Implicit Types (bs : BlockStore) (parts : list Part).

(** The loop appends the parts it is given, in order. *)
Lemma loadRawBlock_loop_parts bs height parts i buf :
  (∀ k part, parts !! k = Some part →
     LoadBlockPart bs height (i + Z.of_nat k) = Some part) →
  Core.loadRawBlock_loop bs height (length parts) i buf
  = ((buf ++ concat (Part_Bytes <$> parts))%list, None).
Proof.
  revert i buf. induction parts as [|part parts IH]; intros i buf Hparts.
  - simpl. by rewrite app_nil_r.
  - pose proof (Hparts 0%nat part eq_refl) as Hhead.
    rewrite Z.add_0_r in Hhead. simpl. rewrite Hhead.
    rewrite IH.
    + by rewrite <- app_assoc.
    + intros k p Hk. rewrite <- (Hparts (S k) p Hk). f_equal. lia.
Qed.

(** What the loop returns: all [n] parts from [i] on are there, or the
    first missing one is reported, with a nil buffer. *)
Lemma loadRawBlock_loop_cases bs height n i buf :
  match Core.loadRawBlock_loop bs height n i buf with
  | (_, None) =>
    ∀ j, i ≤ j < i + Z.of_nat n → is_Some (LoadBlockPart bs height j)
  | (out, Some e) =>
    out = []
    ∧ ∃ j, i ≤ j < i + Z.of_nat n
        ∧ LoadBlockPart bs height j = None
        ∧ (∀ k, i ≤ k < j → is_Some (LoadBlockPart bs height k))
        ∧ e = fmt_Errorf "missing block part at height %d part %d"
                [ArgInt height; ArgInt j]
  end.
Proof.
  revert i buf. induction n as [|n IH]; intros i buf.
  - simpl. intros j Hj. lia.
  - cbn [Core.loadRawBlock_loop].
    destruct (LoadBlockPart bs height i) as [part|] eqn:Hi.
    + specialize (IH (i + 1) (buf ++ Part_Bytes part)%list).
      destruct (Core.loadRawBlock_loop _ _ _ _ _) as [out [e|]].
      * destruct IH as (-> & j & Hj & Hnone & Hbefore & ->).
        split; [done|]. exists j. split_and!; try done; try lia.
        intros k Hk. destruct (decide (k = i)) as [->|]; [by rewrite Hi|].
        apply Hbefore. lia.
      * intros j Hj. destruct (decide (j = i)) as [->|]; [by rewrite Hi|].
        apply IH. lia.
    + split; [done|]. exists i. split_and!; try done; try lia.
Qed.
End BlockFacts.

(** X1.  [loadRawBlock] reassembles a block from its parts: when the
    store has the meta data of the height, with [Total] parts, and holds
    every one of these parts, the result is the concatenation of the
    bytes of the parts in order, without error. *)
Theorem loadRawBlock_reassembles
    (bs : Rpc.BlockStore) (height : Z)
    (meta : Rpc.BlockMeta) (parts : list Rpc.Part) :
  Rpc.LoadBlockMeta bs height = Some meta →
  Rpc.BlockID_PartSetHeader_Total meta = Z.of_nat (length parts) →
  (∀ k part, parts !! k = Some part →
     Rpc.LoadBlockPart bs height (Z.of_nat k) = Some part) →
  Core.loadRawBlock bs height = (concat (Rpc.Part_Bytes <$> parts), None).
Proof.
  intros Hmeta Htotal Hparts. unfold Core.loadRawBlock.
  rewrite Hmeta, Htotal, Nat2Z.id.
  by rewrite loadRawBlock_loop_parts.
Qed.

(** A witness of X1: the block of height 5 of the example store. *)
Lemma loadRawBlock_reassembles_witness :
  Core.loadRawBlock BlockExample.store 5
  = ([Byte.x0a; Byte.x0b; Byte.x0c], None).
Proof.
  apply (loadRawBlock_reassembles BlockExample.store 5
           {| Rpc.BlockID_PartSetHeader_Total := 2 |}
           [BlockExample.part0; BlockExample.part1]).
  - reflexivity.
  - reflexivity.
  - intros [|[|k]] part [= <-]; reflexivity.
Defined.

(** X2.  [loadRawBlock] fails in exactly two ways, each time with a nil
    buffer: there is no block meta data for the height, or a part below
    [Total] is missing, and then the error names the first missing part.
    When it returns without error, the meta data and every part below
    [Total] are in the store. *)
Theorem loadRawBlock_errors (bs : Rpc.BlockStore) (height : Z) :
  match Core.loadRawBlock bs height with
  | (_, None) =>
    ∃ meta, Rpc.LoadBlockMeta bs height = Some meta
      ∧ ∀ j, (0 ≤ j < Rpc.BlockID_PartSetHeader_Total meta)%Z →
             is_Some (Rpc.LoadBlockPart bs height j)
  | (out, Some e) =>
    out = []
    ∧ ((Rpc.LoadBlockMeta bs height = None
        ∧ e = Rpc.fmt_Errorf "no block found for height %d"
                [Rpc.ArgInt height])
       ∨ ∃ meta j,
           Rpc.LoadBlockMeta bs height = Some meta
           ∧ (0 ≤ j < Rpc.BlockID_PartSetHeader_Total meta)%Z
           ∧ Rpc.LoadBlockPart bs height j = None
           ∧ (∀ k, (0 ≤ k < j)%Z → is_Some (Rpc.LoadBlockPart bs height k))
           ∧ e = Rpc.fmt_Errorf "missing block part at height %d part %d"
                   [Rpc.ArgInt height; Rpc.ArgInt j])
  end.
Proof.
  unfold Core.loadRawBlock.
  destruct (Rpc.LoadBlockMeta bs height) as [meta|] eqn:Hmeta.
  - pose proof (loadRawBlock_loop_cases bs height
                  (Z.to_nat (Rpc.BlockID_PartSetHeader_Total meta)) 0 [])
      as Hloop.
    destruct (Core.loadRawBlock_loop _ _ _ _ _) as [out [e|]].
    + destruct Hloop as (-> & j & Hj & Hnone & Hbefore & ->).
      split; [done|]. right. exists meta, j. split_and!; try done; lia.
    + exists meta. split; [done|]. intros j Hj. apply Hloop. lia.
  - split; [done|]. by left.
Qed.

(** X3.  [proveTx] reports a failure to load the block as its own error,
    with the zero proof, whatever the application would answer.  A proof
    returned with an error is the zero proof unless the error is that of
    [ShareProofFromProto]; a proof returned without error is the answer of
    the application to the inclusion query for the raw block of the height
    and the index of the transaction, decoded and converted. *)
Theorem proveTx_stages
    {T : Rpc.Types} {I : Rpc.Imports} (env : Rpc.Environment)
    (height index : Z) :
  (∀ e, (Core.loadRawBlock (Rpc.env_BlockStore env) height).2 = Some e →
        Core.proveTx env height index = (Rpc.ShareProof_zero, Some e))
  ∧ (∀ sp e, Core.proveTx env height index = (sp, Some e) →
       sp = Rpc.ShareProof_zero
       ∨ ∃ p, Rpc.ShareProofFromProto p = (sp, Some e))
  ∧ (∀ sp, Core.proveTx env height index = (sp, None) →
       ∃ rawBlock res p,
         Core.loadRawBlock (Rpc.env_BlockStore env) height = (rawBlock, None)
         ∧ Rpc.QuerySync (Rpc.env_ProxyAppQuery env)
             {| Rpc.RequestQuery_Data := rawBlock;
                Rpc.RequestQuery_Path :=
                  Rpc.fmt_Sprintf Rpc.TxInclusionProofQueryPath
                    [Rpc.ArgInt index] |} = (res, None)
         ∧ Rpc.Unmarshal Rpc.PShareProof_zero (Rpc.ResponseQuery_Value res)
           = (p, None)
         ∧ Rpc.ShareProofFromProto p = (sp, None)).
Proof.
  unfold Core.proveTx.
  destruct (Core.loadRawBlock _ height) as [rawBlock [e|]]; simpl.
  { split_and!; [by intros ? [= ->] | intros ? ? [= <- <-]; by left | done]. }
  destruct (Rpc.QuerySync _ _) as [res [e|]] eqn:Hq.
  { split_and!; [done | intros ? ? [= <- <-]; by left | done]. }
  destruct (Rpc.Unmarshal _ _) as [p [e|]] eqn:Hu.
  { split_and!; [done | intros ? ? [= <- <-]; by left | done]. }
  destruct (Rpc.ShareProofFromProto p) as [sp [e|]] eqn:Hp.
  - split_and!; [done | | done]. intros ? ? [= <- <-]. right. by exists p.
  - split_and!; [done | done |]. intros ? [= <-]. by exists rawBlock, res, p.
Qed.

(** X4.  [ProveShares] reports a failure to load the block as its own
    error, with the zero proof; it turns a response of the application
    that has no value but a log into the error that carries the log, with
    the zero proof, before any decoding; and a proof returned without
    error is the answer of the application to the share inclusion query for
    the raw block and the two shares, which had a value or an empty log,
    decoded and converted. *)
Theorem ProveShares_stages
    {T : Rpc.Types} {I : Rpc.Imports} (path : string)
    (bs : Rpc.BlockStore) (app : Shares.AppConnQueryN)
    (height startShare endShare : Z) :
  let query rawBlock :=
    {| Rpc.RequestQuery_Data := rawBlock;
       Rpc.RequestQuery_Path :=
         Rpc.fmt_Sprintf path [Rpc.ArgInt startShare; Rpc.ArgInt endShare] |} in
  (∀ e, (Core.loadRawBlock bs height).2 = Some e →
        Shares.ProveShares path bs app height startShare endShare
        = (Rpc.ShareProof_zero, Some e))
  ∧ (∀ rawBlock res,
       Core.loadRawBlock bs height = (rawBlock, None) →
       Shares.QuerySyncN app (query rawBlock) = (res, None) →
       Shares.ResponseQueryN_Value res = None →
       Shares.ResponseQueryN_Log res ≠ ""%string →
       Shares.ProveShares path bs app height startShare endShare
       = (Rpc.ShareProof_zero,
          Some (Rpc.errors_New (Shares.ResponseQueryN_Log res))))
  ∧ (∀ sp, Shares.ProveShares path bs app height startShare endShare
           = (sp, None) →
       ∃ rawBlock res p,
         Core.loadRawBlock bs height = (rawBlock, None)
         ∧ Shares.QuerySyncN app (query rawBlock) = (res, None)
         ∧ (Shares.ResponseQueryN_Value res ≠ None
            ∨ Shares.ResponseQueryN_Log res = ""%string)
         ∧ Rpc.Unmarshal Rpc.PShareProof_zero
             (default [] (Shares.ResponseQueryN_Value res)) = (p, None)
         ∧ Rpc.ShareProofFromProto p = (sp, None)).
Proof.
  cbv zeta. unfold Shares.ProveShares.
  destruct (Core.loadRawBlock bs height) as [rawBlock [e|]]; simpl.
  { split_and!; [by intros ? [= ->] | done | done]. }
  split; [done|].
  destruct (Shares.QuerySyncN app _) as [res [e|]] eqn:Hq.
  { split; [|done]. intros ? ? [= <-]. by rewrite Hq. }
  destruct (bool_decide (Shares.ResponseQueryN_Value res = None)) eqn:Hnil;
    [apply bool_decide_eq_true in Hnil | apply bool_decide_eq_false in Hnil].
  - destruct (String.eqb_spec (Shares.ResponseQueryN_Log res) "") as [Hlog|Hlog];
      simpl.
    + split.
      { intros ? ? [= <-]. rewrite Hq. intros [= <-] _ Hne. done. }
      destruct (Rpc.Unmarshal _ _) as [p [e|]] eqn:Hu; [done|].
      destruct (Rpc.ShareProofFromProto p) as [sp [e|]] eqn:Hp; [done|].
      intros ? [= <-]. exists rawBlock, res, p. split_and!; try done. by right.
    + split; [|done].
      intros ? ? [= <-]. rewrite Hq. by intros [= <-] _ _.
  - simpl. split.
    { intros ? ? [= <-]. rewrite Hq. by intros [= <-] ?. }
    destruct (Rpc.Unmarshal _ _) as [p [e|]] eqn:Hu; [done|].
    destruct (Rpc.ShareProofFromProto p) as [sp [e|]] eqn:Hp; [done|].
    intros ? [= <-]. exists rawBlock, res, p. split_and!; try done. by left.
Qed.

(** An application without shares: its log becomes the error. *)
Example ProveShares_silent_application :
  Shares.ProveShares (I := RpcExample.imports) "custom/shareInclusionProof/%d/%d"
    BlockExample.store BlockExample.silent_app 5 0 1
  = ([], Some (Rpc.errors_New "no shares")).
Proof. reflexivity. Qed.

(** X5.  A result of [Tx] is the record the indexer holds for the hash:
    its height, index, transaction and execution result are those of the
    record and its hash is the queried one; its proof is the one [proveTx]
    computes for the height and index of the record when [prove] is set,
    and the zero proof otherwise.  Without [prove], [Tx] reads nothing but
    the indexer: with any block store, application and context it returns
    the same record with the zero proof. *)
Theorem Tx_returns_the_indexed_record
    {T : Rpc.Types} {I : Rpc.Imports} (env : Rpc.Environment)
    (ctx : Rpc.RpcContext) (hash : bytes) (prove : bool)
    (r : Rpc.ResultTx) (err : option Rpc.error) :
  Core.Tx env ctx hash prove = (Some r, err) →
  ∃ rec,
    Rpc.TxIndexer_Get (Rpc.env_TxIndexer env) hash = (Some rec, None)
    ∧ r = {| Rpc.ResultTx_Hash := hash;
             Rpc.ResultTx_Height := Rpc.TxResult_Height rec;
             Rpc.ResultTx_Index := Rpc.TxResult_Index rec;
             Rpc.ResultTx_TxResult := Rpc.TxResult_Result rec;
             Rpc.ResultTx_Tx := Rpc.TxResult_Tx rec;
             Rpc.ResultTx_Proof := Rpc.ResultTx_Proof r |}
    ∧ (if prove
       then Core.proveTx env (Rpc.TxResult_Height rec) (Rpc.TxResult_Index rec)
            = (Rpc.ResultTx_Proof r, None)
       else Rpc.ResultTx_Proof r = Rpc.ShareProof_zero)
    ∧ ∀ bs app ctx',
        Core.Tx {| Rpc.env_TxIndexer := Rpc.env_TxIndexer env;
                   Rpc.env_BlockStore := bs;
                   Rpc.env_ProxyAppQuery := app |} ctx' hash false
        = (Some {| Rpc.ResultTx_Hash := hash;
                   Rpc.ResultTx_Height := Rpc.TxResult_Height rec;
                   Rpc.ResultTx_Index := Rpc.TxResult_Index rec;
                   Rpc.ResultTx_TxResult := Rpc.TxResult_Result rec;
                   Rpc.ResultTx_Tx := Rpc.TxResult_Tx rec;
                   Rpc.ResultTx_Proof := Rpc.ShareProof_zero |}, None).
Proof.
  unfold Core.Tx. simpl.
  destruct (Rpc.is_null_TxIndex (Rpc.env_TxIndexer env)); [done|].
  destruct (Rpc.TxIndexer_Get (Rpc.env_TxIndexer env) hash)
    as [[rec|] [e|]]; try done.
  destruct prove.
  - destruct (Core.proveTx env _ _) as [sp [e|]] eqn:Hp; [done|].
    intros [= <- <-]. by exists rec.
  - intros [= <- <-]. by exists rec.
Qed.

(** A witness of X5: the first transaction of the example indexer, with
    its proof. *)
Lemma Tx_returns_the_indexed_record_witness :
  ∃ r, Core.Tx (I := RpcExample.imports) BlockExample.env () [Byte.x01] true
       = (Some r, None)
    ∧ Rpc.ResultTx_Height r = 5%Z
    ∧ Rpc.ResultTx_Proof r = [Byte.x0a; Byte.x0b; Byte.x0c].
Proof.
  eexists. split; [reflexivity|].
  destruct (Tx_returns_the_indexed_record (I := RpcExample.imports)
              BlockExample.env () [Byte.x01] true _ None eq_refl)
    as (rec & Hget & Hr & Hproof & _).
  assert (rec = RpcExample.tx1) as ->.
  { vm_compute in Hget. injection Hget as <-. reflexivity. }
  split; [by rewrite Hr|].
  apply (f_equal fst) in Hproof. cbn [fst] in Hproof. by rewrite <- Hproof.
Defined.

Section WindowFacts.
Import Rpc.
Context {T : Types} {I : Imports}.
Local Open Scope Z_scope.

Lemma wrap_int_id z : - 2 ^ 63 ≤ z < 2 ^ 63 → wrap_int z = z.
Proof. intros Hz. unfold wrap_int. rewrite Z.mod_small; lia. Qed.

Lemma wrap_int_high z :
  2 ^ 63 ≤ z < 2 ^ 63 + 2 ^ 64 → wrap_int z = z - 2 ^ 64.
Proof.
  intros Hz. unfold wrap_int.
  replace (z + 2 ^ 63) with ((z - 2 ^ 63) + 1 * 2 ^ 64) by lia.
  rewrite Z.mod_add by lia. rewrite Z.mod_small; lia.
Qed.

(** The page the loop returns presents, entry by entry, the [n] records
    from index [i] on. *)
Lemma TxSearch_loop_window env prove results n i acc page :
  Core.TxSearch_loop env prove results n i acc = Returns (inl page) →
  ∃ new, page = (acc ++ new)%list
    ∧ Forall2 (Paging.presents env prove)
        (take n (drop (Z.to_nat i) results)) new.
Proof.
  revert i acc. induction n as [|n IH]; intros i acc; simpl.
  - intros [= <-]. exists []. split; [by rewrite app_nil_r | constructor].
  - destruct (Core.index_slice results i) as [rec|] eqn:Hrec; [|done].
    pose proof (index_slice_Some _ _ _ Hrec) as Hi.
    unfold Core.index_slice in Hrec.
    destruct (Z.ltb_spec i 0) as [|_]; [lia|].
    rewrite (drop_S _ _ _ Hrec). simpl.
    destruct prove.
    + destruct (Core.proveTx env _ _) as [sp [e|]] eqn:Hp; [done|].
      intros (new & -> & Hnew)%IH. eexists (_ :: new).
      split; [by rewrite <- app_assoc|].
      constructor; [by split|].
      replace (Z.to_nat (i + 1)) with (S (Z.to_nat i)) in Hnew by lia. done.
    + intros (new & -> & Hnew)%IH. eexists (_ :: new).
      split; [by rewrite <- app_assoc|].
      constructor; [by split|].
      replace (Z.to_nat (i + 1)) with (S (Z.to_nat i)) in Hnew by lia. done.
Qed.

(** The number of iterations of the loop against the window of the page:
    when the page size is not negative and a loop that runs starts inside
    the results, the [n] records from the skip count on are the records
    from the skip count on, at most [perPage] of them. *)
Lemma window_size {A} (l : list A) perPage skipCount :
  let total := Z.of_nat (length l) in
  let pageSize := Z.min perPage (wrap_int (total - skipCount)) in
  let n := Z.to_nat (wrap_int (skipCount + pageSize) - skipCount) in
  total < 2 ^ 63 → - 2 ^ 63 ≤ skipCount < 2 ^ 63 →
  0 ≤ pageSize → (n ≠ 0%nat → 0 ≤ skipCount) →
  take n (drop (Z.to_nat skipCount) l)
  = take (Z.to_nat perPage) (drop (Z.to_nat skipCount) l).
Proof.
  intros total pageSize n. subst n pageSize.
  intros Htotal Hskip Hsize Hstart.
  assert (0 ≤ total) as Hnonneg by (unfold total; lia).
  destruct (Z.lt_ge_cases (total - skipCount) (2 ^ 63)) as [Hfit|Hbig].
  2: { rewrite (wrap_int_high (total - skipCount)) in Hsize by lia. lia. }
  assert (wrap_int (total - skipCount) = total - skipCount) as Hw1
    by (apply wrap_int_id; lia).
  rewrite Hw1 in *. clear Hw1.
  destruct (Z.lt_ge_cases skipCount 0) as [Hneg|Hpos].
  - (* a negative skip count: no iteration, and [perPage] is 0 *)
    assert (wrap_int (skipCount + Z.min perPage (total - skipCount))
            = skipCount + Z.min perPage (total - skipCount)) as Hw2
      by (apply wrap_int_id; lia).
    rewrite Hw2 in *.
    destruct (decide (Z.min perPage (total - skipCount) = 0)) as [Hz|Hnz].
    + rewrite Hz. replace (Z.to_nat (skipCount + 0 - skipCount)) with 0%nat
        by lia.
      by replace (Z.to_nat perPage) with 0%nat by lia.
    + exfalso. assert (0 ≤ skipCount); [apply Hstart|]; lia.
  - assert (wrap_int (skipCount + Z.min perPage (total - skipCount))
            = skipCount + Z.min perPage (total - skipCount)) as Hw2
      by (apply wrap_int_id; lia).
    rewrite Hw2.
    replace (skipCount + Z.min perPage (total - skipCount) - skipCount)
      with (Z.min perPage (total - skipCount)) by lia.
    destruct (Z.le_ge_cases perPage (total - skipCount)) as [Hle|Hge].
    + by rewrite Z.min_l.
    + rewrite Z.min_r by done.
      rewrite !take_ge; [done | |]; rewrite length_drop; unfold total in *; lia.
Qed.

(** With [MinInt] the minimum, a skip count that is an [int] for every
    page [validatePage] accepts and fewer than 2^63 sorted results, the page of a result of [TxSearch] presents
    the sorted results from the skip count on, at most [perPage] of
    them. *)
Lemma TxSearch_window env ctx query prove pagePtr perPagePtr orderBy res err :
  (∀ a b, MinInt a b = Z.min a b) →
  (∀ total page,
     validatePage pagePtr (validatePerPage perPagePtr) total = (page, None) →
     - 2 ^ 63 ≤ validateSkipCount page (validatePerPage perPagePtr) < 2 ^ 63) →
  (∀ c q, Z.of_nat (length (sort_Slice
             (TxIndexer_Search (env_TxIndexer env) c q).1
             (Paging.less_of orderBy))) < 2 ^ 63) →
  Core.TxSearch env ctx query prove pagePtr perPagePtr orderBy
    = Returns (Some res, err) →
  ∃ q results page,
    query_New query = (q, None)
    ∧ TxIndexer_Search (env_TxIndexer env) (ctx_Context ctx) q
      = (results, None)
    ∧ validatePage pagePtr (validatePerPage perPagePtr)
        (Z.of_nat (length (sort_Slice results (Paging.less_of orderBy))))
      = (page, None)
    ∧ ResultTxSearch_TotalCount res
      = Z.of_nat (length (sort_Slice results (Paging.less_of orderBy)))
    ∧ Forall2 (Paging.presents env prove)
        (take (Z.to_nat (validatePerPage perPagePtr))
           (drop (Z.to_nat (validateSkipCount page (validatePerPage perPagePtr)))
              (sort_Slice results (Paging.less_of orderBy))))
        (ResultTxSearch_Txs res).
Proof.
  intros Hmin Hskip Hlen. unfold Core.TxSearch.
  destruct (is_null_TxIndex _); [done|].
  destruct (_ >? _); [done|].
  destruct (query_New query) as [q [e|]] eqn:Hq; [done|].
  destruct (TxIndexer_Search _ _ q) as [results [e|]] eqn:Hs; [done|].
  specialize (Hlen (ctx_Context ctx) q). rewrite Hs in Hlen. simpl in Hlen.
  unfold Paging.less_of in *.
  destruct (String.eqb orderBy "desc");
    [| destruct (String.eqb orderBy "asc" || String.eqb orderBy ""); [|done]].
  all: cbv zeta.
  all: destruct (validatePage _ _ _) as [page [e|]] eqn:Hpage; [done|].
  all: rewrite Hmin.
  all: match goal with
       | |- context [?a <? 0] => destruct (Z.ltb_spec a 0) as [|Hsize]
       end; [done|].
  all: destruct (Core.TxSearch_loop _ _ _ _ _ _) as [[txs|e]|] eqn:Hloop;
         [|done|done].
  all: intros [= <- <-]; exists q, results, page.
  all: split_and!; try done; cbn [ResultTxSearch_Txs].
  all: pose proof (TxSearch_loop_page _ _ _ _ _ _ _ Hloop) as [_ Hrange].
  all: apply TxSearch_loop_window in Hloop as (new & -> & Hnew); simpl.
  all: rewrite window_size in Hnew;
         [done | done | by eapply Hskip | done | intros Hn; by apply Hrange].
Qed.
End WindowFacts.

Section SearchMoreFacts.
Import Rpc.
Context {T : Types} {I : Imports}.
Local Open Scope Z_scope.

Lemma string_length_append (s1 s2 : string) :
  String.length (s1 +:+ s2) = (String.length s1 + String.length s2)%nat.
Proof. induction s1 as [|c s1 IH]; simpl; [done | by rewrite IH]. Qed.

(** The page of a result presents consecutive records of the sorted
    results, whatever the numbers the pagination helpers gave. *)
Lemma TxSearch_consecutive env ctx query prove pagePtr perPagePtr orderBy
    res err :
  Core.TxSearch env ctx query prove pagePtr perPagePtr orderBy
    = Returns (Some res, err) →
  ∃ q results (n k : nat),
    TxIndexer_Search (env_TxIndexer env) (ctx_Context ctx) q
      = (results, None)
    ∧ Forall2 (Paging.presents env prove)
        (take n (drop k (sort_Slice results (Paging.less_of orderBy))))
        (ResultTxSearch_Txs res).
Proof.
  unfold Core.TxSearch.
  destruct (is_null_TxIndex _); [done|].
  destruct (_ >? _); [done|].
  destruct (query_New query) as [q [e|]] eqn:Hq; [done|].
  destruct (TxIndexer_Search _ _ q) as [results [e|]] eqn:Hs; [done|].
  unfold Paging.less_of.
  destruct (String.eqb orderBy "desc");
    [| destruct (String.eqb orderBy "asc" || String.eqb orderBy ""); [|done]].
  all: cbv zeta.
  all: destruct (validatePage _ _ _) as [page [e|]] eqn:Hpage; [done|].
  all: destruct (_ <? 0); [done|].
  all: destruct (Core.TxSearch_loop _ _ _ _ _ _) as [[txs|e]|] eqn:Hloop;
         [|done|done].
  all: intros [= <- <-].
  all: apply TxSearch_loop_window in Hloop as (new & -> & Hnew); simpl.
  all: by eexists q, results, _, _.
Qed.

(** The entries of a page repeat the order of the records they
    present. *)
Lemma presents_order env prove orderBy (ra rb : TxResult) (a b : ResultTx) :
  Paging.presents env prove ra a → Paging.presents env prove rb b →
  Paging.less_of orderBy rb ra = false →
  if String.eqb orderBy "desc"
  then Paging.not_after (ResultTx_Height b) (ResultTx_Index b)
         (ResultTx_Height a) (ResultTx_Index a)
  else Paging.not_after (ResultTx_Height a) (ResultTx_Index a)
         (ResultTx_Height b) (ResultTx_Index b).
Proof.
  intros [-> _] [-> _]. unfold Paging.less_of, Paging.not_after. simpl.
  destruct (String.eqb orderBy "desc");
    unfold Core.less_desc, Core.less_asc;
    destruct (Z.eqb_spec (TxResult_Height rb) (TxResult_Height ra));
    intros Hless; lia.
Qed.
End SearchMoreFacts.

Section SearchExampleFacts.
Import Rpc.
Local Open Scope Z_scope.

(** The three transactions of the example, newest first. *)
Lemma example_sorted_desc :
  Paging.sorted_by Core.less_desc
    (RpcExample.insertion_sort
       [RpcExample.tx1; RpcExample.tx2; RpcExample.tx3] Core.less_desc).
Proof.
  intros i j a b Hij.
  destruct i as [|[|[|i]]]; destruct j as [|[|[|j]]]; simpl;
    try lia; try done; by intros [= <-] [= <-].
Qed.

(** The example helpers: a page they accept starts inside the results. *)
Lemma example_skip_inside pagePtr perPagePtr total page :
  0 ≤ total →
  RpcExample.example_validatePage pagePtr
    (RpcExample.example_validatePerPage perPagePtr) total = (page, None) →
  0 ≤ RpcExample.example_validateSkipCount page
        (RpcExample.example_validatePerPage perPagePtr) ≤ total.
Proof.
  intros Htotal.
  assert (1 ≤ RpcExample.example_validatePerPage perPagePtr ≤ 100) as Hpp.
  { unfold RpcExample.example_validatePerPage.
    destruct perPagePtr as [pp|]; [|lia].
    destruct (Z.ltb_spec pp 1); [lia|]. destruct (Z.gtb_spec pp 100); lia. }
  set (perPage := RpcExample.example_validatePerPage perPagePtr) in *.
  clearbody perPage.
  unfold RpcExample.example_validatePage, RpcExample.example_validateSkipCount.
  destruct pagePtr as [p|].
  2: { intros [= <-]. simpl. lia. }
  cbv zeta.
  destruct (Z.leb_spec p 0) as [|Hp]; [done|]. simpl.
  set (pages := if _ =? 0 then 1 else _).
  destruct (Z.gtb_spec p pages) as [|Hle]; [done|].
  intros [= <-].
  destruct (Z.ltb_spec ((p - 1) * perPage) 0) as [|Hnonneg]; [lia|].
  split; [done|].
  destruct (decide (total = 0)) as [->|Hne].
  - assert (pages = 1) as Hpages; [|nia].
    unfold pages. replace (0 - 1) with (-1) by lia.
    destruct (decide (perPage = 1)) as [->|]; [done|].
    assert (Z.quot (-1) perPage = 0) as -> by (apply Z.quot_small_iff; lia).
    done.
  - assert (pages = (total - 1) / perPage + 1) as ->.
    { unfold pages. rewrite Z.quot_div_nonneg by lia.
      destruct (Z.eqb_spec ((total - 1) / perPage + 1) 0) as [Hz|]; [|done].
      pose proof (Z.div_pos (total - 1) perPage). lia. }
    pose proof (Z.mul_div_le (total - 1) perPage). nia.
Qed.
End SearchExampleFacts.

(** X6.  The page of [TxSearch] is a window of the sorted results: when
    [TxSearch] returns a result, its [Txs] present, entry by entry and in
    order, the sorted records from the skip count on, at most [perPage] of
    them and fewer only at the end of the results; each entry carries the
    hash of its transaction and, with [prove], the proof of [proveTx].
    Assumed of what is imported: [MinInt] is the minimum, the skip count of
    an accepted page is an [int], and the sorted slice has fewer than 2^63
    elements. *)
Theorem TxSearch_page_is_a_window
    {T : Rpc.Types} {I : Rpc.Imports} (env : Rpc.Environment)
    (ctx : Rpc.RpcContext) (query : string) (prove : bool)
    (pagePtr perPagePtr : option Z) (orderBy : string)
    (res : Rpc.ResultTxSearch) (err : option Rpc.error) :
  (∀ a b, Rpc.MinInt a b = Z.min a b) →
  (∀ total page,
     Rpc.validatePage pagePtr (Rpc.validatePerPage perPagePtr) total
       = (page, None) →
     (- 2 ^ 63 ≤ Rpc.validateSkipCount page (Rpc.validatePerPage perPagePtr)
      < 2 ^ 63)%Z) →
  (∀ c q, (Z.of_nat (length (Rpc.sort_Slice
             (Rpc.TxIndexer_Search (Rpc.env_TxIndexer env) c q).1
             (Paging.less_of orderBy))) < 2 ^ 63)%Z) →
  Core.TxSearch env ctx query prove pagePtr perPagePtr orderBy
    = Rpc.Returns (Some res, err) →
  ∃ q results page,
    Rpc.query_New query = (q, None)
    ∧ Rpc.TxIndexer_Search (Rpc.env_TxIndexer env) (Rpc.ctx_Context ctx) q
      = (results, None)
    ∧ Rpc.validatePage pagePtr (Rpc.validatePerPage perPagePtr)
        (Z.of_nat (length (Rpc.sort_Slice results (Paging.less_of orderBy))))
      = (page, None)
    ∧ Forall2 (Paging.presents env prove)
        (take (Z.to_nat (Rpc.validatePerPage perPagePtr))
           (drop (Z.to_nat (Rpc.validateSkipCount page
                              (Rpc.validatePerPage perPagePtr)))
              (Rpc.sort_Slice results (Paging.less_of orderBy))))
        (Rpc.ResultTxSearch_Txs res).
Proof.
  intros Hmin Hskip Hlen Hres.
  destruct (TxSearch_window _ _ _ _ _ _ _ _ _ Hmin Hskip Hlen Hres)
    as (q & results & page & Hq & Hs & Hpage & _ & Hwin).
  by exists q, results, page.
Qed.

(** A witness of X6: the second page, of two entries, of the three
    example transactions, newest first: it holds the oldest one. *)
Lemma TxSearch_page_is_a_window_witness :
  match Core.TxSearch (I := RpcExample.imports) RpcExample.env ()
          "tx.height > 1" false (Some 2%Z) (Some 2%Z) "desc" with
  | Rpc.Returns (Some res, _) =>
    Forall2 (Paging.presents (I := RpcExample.imports) RpcExample.env false)
      [RpcExample.tx1] (Rpc.ResultTxSearch_Txs res)
  | _ => False
  end.
Proof.
  destruct (Core.TxSearch (I := RpcExample.imports) RpcExample.env ()
              "tx.height > 1" false (Some 2%Z) (Some 2%Z) "desc")
    as [[[res|] err]|msg] eqn:Hres; [|by vm_compute in Hres..].
  destruct (TxSearch_page_is_a_window (I := RpcExample.imports) RpcExample.env
              () "tx.height > 1" false (Some 2%Z) (Some 2%Z) "desc" res err)
    as (q & results & page & Hq & Hs & Hpage & Hwin).
  - done.
  - intros total page Hpage.
    change (RpcExample.example_validatePage (Some 2%Z) 2%Z total
            = (page, None)) in Hpage.
    unfold RpcExample.example_validatePage in Hpage.
    destruct (_ || _) in Hpage; [done|]. injection Hpage as <-.
    change (Rpc.validateSkipCount 2%Z (Rpc.validatePerPage (Some 2%Z)))
      with 2%Z.
    lia.
  - intros c q. vm_compute. done.
  - exact Hres.
  - injection Hs as <-. vm_compute in Hpage. injection Hpage as <-.
    exact Hwin.
Defined.

(** X7.  The page of [TxSearch] is ordered: when [sort.Slice] leaves no
    record before one that is less than it, two entries of the returned
    page follow the requested order: with "desc" the later entry is not
    after the earlier one in (height, index) order, otherwise the earlier
    is not after the later. *)
Theorem TxSearch_page_is_ordered
    {T : Rpc.Types} {I : Rpc.Imports} (env : Rpc.Environment)
    (ctx : Rpc.RpcContext) (query : string) (prove : bool)
    (pagePtr perPagePtr : option Z) (orderBy : string)
    (res : Rpc.ResultTxSearch) (err : option Rpc.error) :
  (∀ c q, Paging.sorted_by (Paging.less_of orderBy)
            (Rpc.sort_Slice
               (Rpc.TxIndexer_Search (Rpc.env_TxIndexer env) c q).1
               (Paging.less_of orderBy))) →
  Core.TxSearch env ctx query prove pagePtr perPagePtr orderBy
    = Rpc.Returns (Some res, err) →
  ∀ (i j : nat) (a b : Rpc.ResultTx),
    (i < j)%nat →
    Rpc.ResultTxSearch_Txs res !! i = Some a →
    Rpc.ResultTxSearch_Txs res !! j = Some b →
    if String.eqb orderBy "desc"
    then Paging.not_after (Rpc.ResultTx_Height b) (Rpc.ResultTx_Index b)
           (Rpc.ResultTx_Height a) (Rpc.ResultTx_Index a)
    else Paging.not_after (Rpc.ResultTx_Height a) (Rpc.ResultTx_Index a)
           (Rpc.ResultTx_Height b) (Rpc.ResultTx_Index b).
Proof.
  intros Hsorted Hres i j a b Hij Ha Hb.
  destruct (TxSearch_consecutive _ _ _ _ _ _ _ _ _ Hres)
    as (q & results & n & k & Hs & Hwin).
  destruct (Forall2_lookup_r _ _ _ _ _ Hwin Ha) as (ra & Hra & Hpa).
  destruct (Forall2_lookup_r _ _ _ _ _ Hwin Hb) as (rb & Hrb & Hpb).
  apply lookup_take_Some in Hra as [Hra _].
  apply lookup_take_Some in Hrb as [Hrb _].
  rewrite lookup_drop in Hra. rewrite lookup_drop in Hrb.
  apply (presents_order _ _ _ _ _ _ _ Hpa Hpb).
  specialize (Hsorted (Rpc.ctx_Context ctx) q).
  rewrite Hs in Hsorted. simpl in Hsorted.
  eapply (Hsorted _ _ ra rb); [|exact Hra|exact Hrb]. lia.
Qed.

(** A witness of X7: the first page, of two entries, of the three
    example transactions, newest first. *)
Lemma TxSearch_page_is_ordered_witness :
  match Core.TxSearch (I := RpcExample.imports) RpcExample.env ()
          "tx.height > 1" false (Some 1%Z) (Some 2%Z) "desc" with
  | Rpc.Returns (Some res, _) =>
    ∀ a b,
      Rpc.ResultTxSearch_Txs res !! 0%nat = Some a →
      Rpc.ResultTxSearch_Txs res !! 1%nat = Some b →
      Paging.not_after (Rpc.ResultTx_Height b) (Rpc.ResultTx_Index b)
        (Rpc.ResultTx_Height a) (Rpc.ResultTx_Index a)
  | _ => False
  end.
Proof.
  destruct (Core.TxSearch (I := RpcExample.imports) RpcExample.env ()
              "tx.height > 1" false (Some 1%Z) (Some 2%Z) "desc")
    as [[[res|] err]|msg] eqn:Hres; [|by vm_compute in Hres..].
  intros a b Ha Hb.
  refine (TxSearch_page_is_ordered (I := RpcExample.imports) RpcExample.env
            () "tx.height > 1" false (Some 1%Z) (Some 2%Z) "desc" res err
            _ Hres 0%nat 1%nat a b _ Ha Hb).
  - intros c q. exact example_sorted_desc.
  - lia.
Defined.

Section PointerFacts.
Import Rpc.
Context {T : Types} {I : Imports}.
Local Open Scope Z_scope.

(** A loop that stays inside a slice without nil pointers does not
    panic. *)
Lemma TxSearch_loop_ptr_returns env prove
    (results : list (option TxResult)) n i acc :
  None ∉ results →
  0 ≤ i → i + Z.of_nat n ≤ Z.of_nat (length results) →
  ∃ r, Pointers.TxSearch_loop env prove results n i acc = Returns r.
Proof.
  intros Hnil. revert i acc. induction n as [|n IH]; intros i acc Hi Hn; simpl.
  - by eexists.
  - unfold Core.index_slice. destruct (Z.ltb_spec i 0) as [|_]; [lia|].
    destruct (lookup_lt_is_Some_2 results (Z.to_nat i)) as [[rec|] Hrec];
      [lia | |].
    + rewrite Hrec.
      destruct (if prove then _ else _) as [sp [e|]]; [by eexists|].
      apply IH; lia.
    + exfalso. apply Hnil. by eapply list_elem_of_lookup_2.
Qed.

(** Through pointers that are not nil the comparisons do not panic. *)
Lemma less_ptr_returns (less : TxResult → TxResult → bool)
    (l : list (option TxResult)) a b :
  None ∉ l → a ∈ l → b ∈ l → ∃ v, Pointers.less_ptr less a b = Returns v.
Proof.
  intros Hnil Ha Hb. destruct a as [a|]; [|done]. destruct b as [b|]; [|done].
  by eexists.
Qed.
End PointerFacts.

Section PointersExampleFacts.
Import Rpc.

(** The insertion of an element the comparison accepts returns a
    permutation. *)
Lemma insert_by_ptr_perm {A} (less : A → A → outcome bool) x (l : list A) :
  (∀ y, y ∈ l → ∃ v, less x y = Returns v) →
  ∃ l', PointersExample.insert_by less x l = Returns l' ∧ l' ≡ₚ x :: l.
Proof.
  induction l as [|y l IH]; intros Hless; simpl.
  - by eexists.
  - destruct (Hless y) as [[|] ->]; [apply list_elem_of_here | by eexists |].
    destruct IH as (l' & -> & Hperm).
    { intros z Hz. apply Hless. by apply list_elem_of_further. }
    eexists. split; [done|]. rewrite Hperm. apply Permutation_swap.
Qed.

(** The sort of the examples is one: where the comparison does not panic
    on the elements of the slice it returns a permutation of the
    slice. *)
Lemma insertion_sort_ptr_perm {A} (l : list A) (less : A → A → outcome bool) :
  (∀ a b, a ∈ l → b ∈ l → ∃ v, less a b = Returns v) →
  ∃ l', PointersExample.insertion_sort l less = Returns l' ∧ l' ≡ₚ l.
Proof.
  unfold PointersExample.insertion_sort.
  induction l as [|x l IH]; intros Hless; simpl.
  - by eexists.
  - destruct IH as (l' & -> & Hperm).
    { intros a b Ha Hb. apply Hless; by apply list_elem_of_further. }
    destruct (insert_by_ptr_perm less x l') as (l'' & -> & Hperm').
    { intros y Hy. apply Hless; [apply list_elem_of_here|].
      apply list_elem_of_further. by rewrite <- Hperm. }
    eexists. split; [done|]. by rewrite Hperm', Hperm.
Qed.
End PointersExampleFacts.

(** A nil pointer among the records makes [TxSearch] panic in the first
    comparison of the sort. *)
Example TxSearch_nil_record_panics :
  Pointers.TxSearch (I := RpcExample.imports)
    (@PointersExample.insertion_sort _) PointersExample.Search_with_nil
    RpcExample.env () "tx.height > 1" false None None "asc"
  = Rpc.Panics "invalid memory address or nil pointer dereference".
Proof. reflexivity. Qed.

(** X8.  Without [prove], [TxSearch] does not panic when the indexer
    returns no nil pointer and the pagination helpers keep their bounds.
    With the records read as the pointers they are, for a context that
    is not nil and an environment that is set: if no record of a search
    is nil and a search has fewer than 2^63 records, [sort.Slice] returns
    a permutation of its slice whenever the comparison does not panic on
    its elements, [MinInt] is the minimum, [validatePerPage] gives a page
    size of at least 1, and the skip count of an accepted page lies
    between 0 and the number of results, then no comparison dereferences
    nil, the allocation of the page has a capacity that is not negative,
    every [results[i]] is in range and not nil, and [TxSearch]
    returns. *)
Theorem TxSearch_does_not_panic
    {T : Rpc.Types} {I : Rpc.Imports}
    (sort_Slice_ptr :
       list (option Rpc.TxResult) →
       (option Rpc.TxResult → option Rpc.TxResult → Rpc.outcome bool) →
       Rpc.outcome (list (option Rpc.TxResult)))
    (Search : Rpc.GoContext → Rpc.Query →
              list (option Rpc.TxResult) * option Rpc.error)
    (env : Rpc.Environment)
    (ctx : Rpc.RpcContext) (query : string)
    (pagePtr perPagePtr : option Z) (orderBy : string) :
  (∀ c q, None ∉ (Search c q).1) →
  (∀ c q, (Z.of_nat (length (Search c q).1) < 2 ^ 63)%Z) →
  (∀ l less,
     (∀ a b, a ∈ l → b ∈ l → ∃ v, less a b = Rpc.Returns v) →
     ∃ l', sort_Slice_ptr l less = Rpc.Returns l' ∧ l' ≡ₚ l) →
  (∀ a b, Rpc.MinInt a b = Z.min a b) →
  (1 ≤ Rpc.validatePerPage perPagePtr)%Z →
  (∀ total page,
     (0 ≤ total)%Z →
     Rpc.validatePage pagePtr (Rpc.validatePerPage perPagePtr) total
       = (page, None) →
     (0 ≤ Rpc.validateSkipCount page (Rpc.validatePerPage perPagePtr)
      ≤ total)%Z) →
  ∃ r, Pointers.TxSearch sort_Slice_ptr Search env ctx query false
         pagePtr perPagePtr orderBy
       = Rpc.Returns r.
Proof.
  intros Hnil Hlen Hsort Hmin Hpp Hskip. unfold Pointers.TxSearch.
  destruct (Rpc.is_null_TxIndex _); [by eexists|].
  destruct (_ >? _)%Z; [by eexists|].
  destruct (Rpc.query_New query) as [q [e|]]; [by eexists|].
  pose proof (Hnil (Rpc.ctx_Context ctx) q) as Hnil'.
  pose proof (Hlen (Rpc.ctx_Context ctx) q) as Hlen'.
  destruct (Search _ q) as [results [e|]]; [by eexists|].
  simpl in Hnil', Hlen'.
  assert (∀ less,
    ∃ r, match sort_Slice_ptr results (Pointers.less_ptr less) with
         | Rpc.Panics why => Rpc.Panics why
         | Rpc.Returns results =>
           let totalCount := Z.of_nat (length results) in
           let perPage := Rpc.validatePerPage perPagePtr in
           let '(page, err) := Rpc.validatePage pagePtr perPage totalCount in
           match err with
           | Some e => Rpc.Returns (None, Some e)
           | None =>
             let skipCount := Rpc.validateSkipCount page perPage in
             let pageSize :=
               Rpc.MinInt perPage (Rpc.wrap_int (totalCount - skipCount)) in
             if (pageSize <? 0)%Z
             then Rpc.Panics "makeslice: cap out of range"
             else
               match Pointers.TxSearch_loop env false results
                       (Z.to_nat (Rpc.wrap_int (skipCount + pageSize)
                                  - skipCount))
                       skipCount [] with
               | Rpc.Panics why => Rpc.Panics why
               | Rpc.Returns (inr e) => Rpc.Returns (None, Some e)
               | Rpc.Returns (inl apiResults) =>
                 Rpc.Returns
                   (Some {| Rpc.ResultTxSearch_Txs := apiResults;
                            Rpc.ResultTxSearch_TotalCount := totalCount |},
                    None)
               end
           end
         end = Rpc.Returns r) as Hpage.
  { intros less.
    destruct (Hsort results (Pointers.less_ptr less)) as (sorted & -> & Hperm).
    { intros a b. by apply less_ptr_returns. }
    assert (None ∉ sorted) as Hnil'' by by rewrite Hperm.
    assert (length sorted = length results) as Hsame by by rewrite Hperm.
    rewrite <- Hsame in Hlen'. clear Hperm Hsame Hnil'. cbv zeta.
    pose proof (Hskip (Z.of_nat (length sorted))) as Hskip'.
    destruct (Rpc.validatePage _ _ _) as [page [e|]]; [by eexists|].
    specialize (Hskip' page ltac:(lia) eq_refl).
    set (skipCount := Rpc.validateSkipCount _ _) in *.
    set (perPage := Rpc.validatePerPage _) in *.
    rewrite Hmin. rewrite (wrap_int_id (_ - _)) by lia.
    destruct (Z.ltb_spec (Z.min perPage (Z.of_nat (length sorted) - skipCount))
                0) as [|_]; [lia|].
    rewrite wrap_int_id by lia.
    destruct (TxSearch_loop_ptr_returns env false sorted
                (Z.to_nat (skipCount
                           + Z.min perPage (Z.of_nat (length sorted)
                                            - skipCount) - skipCount))
                skipCount [] Hnil'') as [[page'|e] ->]; [lia|lia|..];
      by eexists. }
  destruct (String.eqb orderBy "desc"); [apply Hpage|].
  destruct (_ || _); [apply Hpage|by eexists].
Qed.

(** A witness of X8: the three example records behind pointers, sorted
    by insertion, with the pagination helpers of the example. *)
Lemma TxSearch_does_not_panic_witness :
  ∃ r, Pointers.TxSearch (I := RpcExample.imports)
         (@PointersExample.insertion_sort _) PointersExample.Search
         RpcExample.env () "tx.height > 1" false (Some 2%Z) (Some 2%Z) "asc"
       = Rpc.Returns r.
Proof.
  apply (TxSearch_does_not_panic (I := RpcExample.imports)
           (@PointersExample.insertion_sort _) PointersExample.Search
           RpcExample.env () "tx.height > 1" (Some 2%Z) (Some 2%Z) "asc").
  - intros c q. simpl. rewrite !not_elem_of_cons. split_and!; try done.
    apply not_elem_of_nil.
  - intros c q. simpl. lia.
  - intros l less. apply insertion_sort_ptr_perm.
  - done.
  - by vm_compute.
  - intros total page Htotal Hpage.
    exact (example_skip_inside (Some 2%Z) (Some 2%Z) total page Htotal Hpage).
Defined.

(** X9.  [TxSearchMatchEvents] counts its own prefix against the length
    limit: it puts the 21 bytes of "match.events = 1 AND " (or of the
    text with 0) before the query and hands the result to [TxSearch], so
    with indexing enabled a query longer than [maxQueryLength] minus 21
    bytes is refused with "maximum query length exceeded", also when
    [TxSearch] itself would accept it. *)
Theorem TxSearchMatchEvents_counts_the_prefix
    {T : Rpc.Types} {I : Rpc.Imports} (env : Rpc.Environment)
    (ctx : Rpc.RpcContext) (query : string) (prove : bool)
    (pagePtr perPagePtr : option Z) (orderBy : string) (matchEvents : bool) :
  Rpc.is_null_TxIndex (Rpc.env_TxIndexer env) = false →
  (Rpc.maxQueryLength < Z.of_nat (String.length query) + 21)%Z →
  CoreCopy.TxSearchMatchEvents env ctx query prove pagePtr perPagePtr orderBy
      matchEvents
    = Rpc.Returns
        (None, Some (Rpc.errors_New "maximum query length exceeded")).
Proof.
  intros Hidx Hlen. unfold CoreCopy.TxSearchMatchEvents, CoreCopy.TxSearch.
  rewrite Hidx.
  assert (Z.of_nat (String.length
            ((if matchEvents then "match.events = 1 AND "
              else "match.events = 0 AND ") +:+ query))
          = (Z.of_nat (String.length query) + 21)%Z) as Hprefix.
  { rewrite string_length_append. destruct matchEvents; simpl; lia. }
  destruct matchEvents; rewrite Hprefix;
    (destruct (Z.gtb_spec (Z.of_nat (String.length query) + 21)
                Rpc.maxQueryLength); [done|lia]).
Qed.

(** A witness of X9: a query of 500 bytes under a limit of 512 is
    accepted by [TxSearch] and refused by [TxSearchMatchEvents]. *)
Lemma TxSearchMatchEvents_counts_the_prefix_witness :
  (∃ res, CoreCopy.TxSearch (I := RpcExample.imports) RpcExample.env ()
            SearchExample.long_query false None None "" 
          = Rpc.Returns (Some res, None))
  ∧ CoreCopy.TxSearchMatchEvents (I := RpcExample.imports) RpcExample.env ()
      SearchExample.long_query false None None "" true
    = Rpc.Returns
        (None, Some (Rpc.errors_New "maximum query length exceeded")).
Proof.
  split; [eexists; by vm_compute|].
  apply (TxSearchMatchEvents_counts_the_prefix (I := RpcExample.imports)
           RpcExample.env () SearchExample.long_query false None None ""
           true).
  - reflexivity.
  - by vm_compute.
Defined.

Section ProveFacts.
Import Rpc.
Context {T : Types} {I : Imports}.

(** Without [prove] the pagination loop reads only the indexer's
    records. *)
Lemma TxSearch_loop_without_prove env env' results n i acc :
  Core.TxSearch_loop env false results n i acc
  = Core.TxSearch_loop env' false results n i acc.
Proof.
  revert i acc. induction n as [|n IH]; intros i acc; simpl; [done|].
  destruct (Core.index_slice results i); [apply IH|done].
Qed.
End ProveFacts.

(** X10.  [TxSearch] returns a result or an error, never both and never
    neither: whenever it returns, exactly one of the two is nil. *)
Theorem TxSearch_result_xor_error
    {T : Rpc.Types} {I : Rpc.Imports} (env : Rpc.Environment)
    (ctx : Rpc.RpcContext) (query : string) (prove : bool)
    (pagePtr perPagePtr : option Z) (orderBy : string) :
  match Core.TxSearch env ctx query prove pagePtr perPagePtr orderBy with
  | Rpc.Returns (Some _, None) | Rpc.Returns (None, Some _) => True
  | Rpc.Returns _ => False
  | Rpc.Panics _ => True
  end.
Proof.
  unfold Core.TxSearch.
  destruct (Rpc.is_null_TxIndex _); [done|].
  destruct (_ >? _)%Z; [done|].
  destruct (Rpc.query_New query) as [q [e|]]; [done|].
  destruct (Rpc.TxIndexer_Search _ _ q) as [results [e|]]; [done|].
  destruct (if String.eqb orderBy "desc" then _ else _) as [sorted|]; [|done].
  cbv zeta. destruct (Rpc.validatePage _ _ _) as [page [e|]]; [done|].
  destruct (_ <? 0)%Z; [done|].
  by destruct (Core.TxSearch_loop _ _ _ _ _ _) as [[page'|e]|why].
Qed.

(** X11.  An [orderBy] other than "desc", "asc" and the empty text never
    gives a page: [TxSearch] returns an error and no result.  The order is
    looked at only after the search: when indexing is enabled, the query
    is short enough and parses, and the indexer's search succeeds, the
    error is the one about [order_by]. *)
Theorem TxSearch_rejects_other_orders
    {T : Rpc.Types} {I : Rpc.Imports} (env : Rpc.Environment)
    (ctx : Rpc.RpcContext) (query : string) (prove : bool)
    (pagePtr perPagePtr : option Z) (orderBy : string) :
  orderBy ≠ "desc"%string → orderBy ≠ "asc"%string → orderBy ≠ ""%string →
  ∃ e,
    Core.TxSearch env ctx query prove pagePtr perPagePtr orderBy
      = Rpc.Returns (None, Some e)
    ∧ (Rpc.is_null_TxIndex (Rpc.env_TxIndexer env) = false →
       (Z.of_nat (String.length query) ≤ Rpc.maxQueryLength)%Z →
       ∀ q results,
         Rpc.query_New query = (q, None) →
         Rpc.TxIndexer_Search (Rpc.env_TxIndexer env) (Rpc.ctx_Context ctx) q
           = (results, None) →
         e = Rpc.errors_New
               "expected order_by to be either `asc` or `desc` or empty").
Proof.
  intros Hdesc Hasc Hempty. unfold Core.TxSearch.
  apply String.eqb_neq in Hdesc, Hasc, Hempty.
  rewrite Hdesc, Hasc, Hempty. simpl.
  destruct (Rpc.is_null_TxIndex _); [by eexists|].
  destruct (Z.gtb_spec (Z.of_nat (String.length query)) Rpc.maxQueryLength).
  { eexists. split; [done|]. intros _ ?. lia. }
  destruct (Rpc.query_New query) as [q [e|]].
  { eexists. split; [done|]. by intros _ _ q' results' [= _ ?]. }
  destruct (Rpc.TxIndexer_Search _ _ q) as [results [e|]] eqn:Hs.
  { eexists. split; [done|]. intros _ _ q' results' [= <-] Hs'.
    rewrite Hs in Hs'. by injection Hs'. }
  by eexists.
Qed.

(** A witness of X11: the order "newest" on the example environment. *)
Lemma TxSearch_rejects_other_orders_witness :
  Core.TxSearch (I := RpcExample.imports) RpcExample.env ()
    "tx.height > 1" false None None "newest"
  = Rpc.Returns
      (None,
       Some (Rpc.errors_New
               "expected order_by to be either `asc` or `desc` or empty")).
Proof.
  destruct (TxSearch_rejects_other_orders (I := RpcExample.imports)
              RpcExample.env () "tx.height > 1" false None None "newest")
    as (e & Hres & He); [done..|].
  rewrite Hres.
  by rewrite (He eq_refl ltac:(by vm_compute) "tx.height > 1"%string
                [RpcExample.tx1; RpcExample.tx2; RpcExample.tx3]
                eq_refl eq_refl).
Defined.

(** X12.  Without [prove], neither [Tx] nor [TxSearch] reads a block or
    asks the application: their outcome is the same whatever block store
    and application connection the environment holds. *)
Theorem without_prove_only_the_indexer_is_used
    {T : Rpc.Types} {I : Rpc.Imports} (env : Rpc.Environment)
    (bs : Rpc.BlockStore) (app : Rpc.AppConnQuery)
    (ctx : Rpc.RpcContext) (hash : bytes) (query : string)
    (pagePtr perPagePtr : option Z) (orderBy : string) :
  let env' :=
    {| Rpc.env_TxIndexer := Rpc.env_TxIndexer env;
       Rpc.env_BlockStore := bs;
       Rpc.env_ProxyAppQuery := app |} in
  Core.Tx env' ctx hash false = Core.Tx env ctx hash false
  ∧ Core.TxSearch env' ctx query false pagePtr perPagePtr orderBy
    = Core.TxSearch env ctx query false pagePtr perPagePtr orderBy.
Proof.
  intros env'. split; [done|].
  unfold Core.TxSearch. subst env'. simpl.
  destruct (Rpc.is_null_TxIndex _); [done|].
  destruct (_ >? _)%Z; [done|].
  destruct (Rpc.query_New query) as [q [e|]]; [done|].
  destruct (Rpc.TxIndexer_Search _ _ q) as [results [e|]]; [done|].
  destruct (if String.eqb orderBy "desc" then _ else _) as [sorted|]; [|done].
  cbv zeta. destruct (Rpc.validatePage _ _ _) as [page [e|]]; [done|].
  destruct (_ <? 0)%Z; [done|].
  by rewrite (TxSearch_loop_without_prove _ env).
Qed.
